(** * patch-finder: the spiders and the command-line entry point

    A shallow embedding of [patchfinder/spiders/default_spider.py],
    [patchfinder/spiders/base_spider.py] and [patchfinder.py].

    Python generators are embedded as functions returning the spider after
    the generator has been consumed together with the list of what was
    yielded, in order.  The body of each [for] loop is a function of its own,
    so that a crawl can also be read as an arbitrary interleaving of loop
    iterations of several responses. *)

From stdpp Require Import base list strings gmap.
From Stdlib Require Import ZArith Ascii.

Local Open Scope string_scope.
Local Open Scope list_scope.
Local Open Scope Z_scope.

(** ** Values shared by the modules *)

Module Http.

(** [scrapy.http.Response], as far as the spiders read it. Header names are
    the keys of [headers]. *)
Record Response := {
  url : string;
  headers : gmap string string;
  body : string
}.

End Http.

Module Vulnerability.

Inductive Kind := Specific | Generic.

(** The object [context.create_vuln] returns. The spiders read [vuln_id]
    and [entrypoint_URLs]; the tests read [base_url]. *)
Record Vuln := {
  vuln_id : string;
  kind : Kind;
  base_url : string;
  entrypoint_URLs : list string
}.

End Vulnerability.

Module Items.

(** [items.Patch] *)
Record Patch := {
  patch_link : string;
  reaching_path : string
}.

End Items.

(** ** Generators *)

Section Generators.

Context {S A B : Type}.

(** [for x in xs: body] inside a generator over the state [S]: what the
    iterations yield is concatenated, the state is threaded through. *)
Fixpoint for_each (body : S → A → S * list B) (self : S) (xs : list A)
  : S * list B :=
  match xs with
  | [] => (self, [])
  | x :: xs' =>
      let '(self1, out1) := body self x in
      let '(self2, out2) := for_each body self1 xs' in
      (self2, out1 ++ out2)
  end.

End Generators.

(** ** default_spider.py *)

Module DefaultSpider.
Import Http Items.

Inductive Callback := parse_callback | parse_debian_callback.

(** [scrapy.http.Request(url, callback=..., priority=...)]; the priority
    defaults to 0. *)
Record Request := {
  request_url : string;
  callback : Callback;
  priority : Z
}.

Inductive Output :=
| Item (patch : Patch)
| Follow (request : Request).

(** The instance attributes. *)
Record Spider := {
  name : string;
  vuln_id : string;
  start_urls : list string;
  patches : list string;
  deny_domains : list string;
  important_domains : list string;
  patch_limit : Z
}.

(** What the spider calls outside this file.
    - [is_patch] is [entrypoint.is_patch]: the patch link of a link, [None]
      standing for every falsy result;
    - [get_xpath] is [entrypoint.get_xpath];
    - [candidate_links xpaths response] are the links scrapy's
      [LxmlLinkExtractor] finds under [restrict_xpaths] before its domain
      filter, and [url_is_from_any_domain] is the test of that filter;
    - [urljoin] is [response.urljoin];
    - [hostname url] is [urlparse(url).hostname];
    - [debian_parse] is [DebianParser().parse]. *)
Class Collaborators := {
  is_patch : string → option string;
  get_xpath : string → list string;
  candidate_links : list string → Response → list string;
  url_is_from_any_domain : string → list string → bool;
  urljoin : string → string → string;
  hostname : string → option string;
  debian_parse : string → list Patch
}.

(** The keyword arguments [spawn_crawler] may pass; [vuln] is read
    unconditionally, the others only override the class attributes. *)
Record Kwargs := {
  kw_vuln : Vulnerability.Vuln;
  kw_deny_domains : option (list string);
  kw_important_domains : option (list string);
  kw_patch_limit : option Z
}.

Definition class_deny_domains : list string := ["facebook.com"; "twitter.com"].
Definition class_important_domains : list string := [].
Definition class_patch_limit : Z := 100.

(** [__init__] *)
Definition init (kwargs : Kwargs) : Spider :=
  {| name := "default_spider";
     vuln_id := Vulnerability.vuln_id (kw_vuln kwargs);
     start_urls := Vulnerability.entrypoint_URLs (kw_vuln kwargs);
     patches := [];
     deny_domains := default class_deny_domains (kw_deny_domains kwargs);
     important_domains :=
       default class_important_domains (kw_important_domains kwargs);
     patch_limit := default class_patch_limit (kw_patch_limit kwargs) |}.

(** [add_patch] *)
Definition add_patch (self : Spider) (link : string) : Spider :=
  {| name := name self;
     vuln_id := vuln_id self;
     start_urls := start_urls self;
     patches := patches self ++ [link];
     deny_domains := deny_domains self;
     important_domains := important_domains self;
     patch_limit := patch_limit self |}.

(** [len(self.patches) < self.patch_limit] *)
Definition below_limit (self : Spider) : bool :=
  bool_decide (Z.of_nat (length (patches self)) < patch_limit self).

(** The patch count is within the limit, and has reached it. *)
Definition within_limit (self : Spider) : Prop :=
  Z.of_nat (length (patches self)) ≤ patch_limit self.

Definition limit_reached (self : Spider) : Prop :=
  patch_limit self ≤ Z.of_nat (length (patches self)).

(** The attributes no callback assigns. *)
Definition same_settings (s s' : Spider) : Prop :=
  name s' = name s ∧ vuln_id s' = vuln_id s ∧ start_urls s' = start_urls s
  ∧ deny_domains s' = deny_domains s
  ∧ important_domains s' = important_domains s
  ∧ patch_limit s' = patch_limit s.

(** [scrapy.http.Request(url, callback=...)] as [start_requests] calls it on
    a start URL: [stored_url url] is the URL the request holds (the
    constructor passes it through [safe_url_string], which may rewrite it),
    [None] when the constructor raises [ValueError] for a URL without
    scheme. *)
Class RequestConstructor := {
  stored_url : string → option string
}.

(** One iteration of the loop of [start_requests]: the request it yields,
    [None] when [Request] raises. The callback is chosen on the start URL as
    it is in [start_urls]. *)
Definition start_request `{!RequestConstructor} (u : string) : option Request :=
  if String.prefix "https://security-tracker.debian.org" u
  then stored ← stored_url u;
       Some {| request_url := stored; callback := parse_debian_callback;
               priority := 0 |}
  else stored ← stored_url u;
       Some {| request_url := stored; callback := parse_callback;
               priority := 0 |}.

(** The loop of [start_requests] over the URLs left: the requests yielded,
    in order, and whether the generator then raised instead of ending. *)
Fixpoint start_requests_from `{!RequestConstructor} (urls : list string)
    : list Request * bool :=
  match urls with
  | [] => ([], false)
  | u :: urls' =>
      match start_request u with
      | Some request =>
          let '(requests, raised) := start_requests_from urls' in
          (request :: requests, raised)
      | None => ([], true)
      end
  end.

(** [start_requests] *)
Definition start_requests `{!RequestConstructor} (self : Spider)
    : list Request * bool :=
  start_requests_from (start_urls self).

Section WithCollaborators.
Context `{!Collaborators}.

(** [domain_priority] *)
Definition domain_priority (self : Spider) (u : string) : Z :=
  match hostname u with
  | Some domain =>
      if bool_decide (domain ∈ important_domains self) then 1 else 0
  | None => 0
  end.

(** The links [LxmlLinkExtractor(deny_domains=..., restrict_xpaths=...)]
    extracts from a response. *)
Definition extract_links (deny : list string) (xpaths : list string)
    (response : Response) : list string :=
  filter (λ l, url_is_from_any_domain l deny = false)
         (candidate_links xpaths response).

(** One iteration of the loop of [parse]. The first branch is the [if]
    ([patch_link] truthy and the count below the limit), the second the
    [elif] (reached with a falsy [patch_link] only, the count below the
    limit); in the last neither condition holds and nothing is yielded. *)
Definition parse_link (response : Response) (self : Spider)
    (extracted : string) : Spider * list Output :=
  let link := urljoin (url response) extracted in
  match is_patch link, below_limit self with
  | Some patch_link, true =>
      if bool_decide (patch_link ∈ patches self) then (self, [])
      else
        let patch := {| patch_link := patch_link;
                        reaching_path := url response |} in
        (add_patch self patch_link, [Item patch])
  | None, true =>
      let priority := domain_priority self link in
      (self, [Follow {| request_url := link;
                        callback := parse_callback;
                        priority := priority |}])
  | _, false => (self, [])
  end.

(** [parse] *)
Definition parse (self : Spider) (response : Response)
    : Spider * list Output :=
  let xpaths := get_xpath (url response) in
  let links := extract_links (deny_domains self) xpaths response in
  for_each (parse_link response) self links.

(** One iteration of the loop of [parse_debian]. *)
Definition debian_patch (self : Spider) (patch : Patch)
    : Spider * list Output :=
  if below_limit self
  then (add_patch self (patch_link patch), [Item patch])
  else (self, []).

(** [parse_debian] *)
Definition parse_debian (self : Spider) (response : Response)
    : Spider * list Output :=
  let patches := debian_parse (vuln_id self) in
  for_each debian_patch self patches.

(** A crawl hands every response to the callback of its request. *)
Definition handle (self : Spider) (page : Callback * Response)
    : Spider * list Output :=
  match page.1 with
  | parse_callback => parse self page.2
  | parse_debian_callback => parse_debian self page.2
  end.

Definition crawl : Spider → list (Callback * Response) → Spider * list Output :=
  for_each handle.

(** Loop iterations of either callback, in any order. *)
Inductive Step :=
| LinkStep (response : Response) (extracted : string)
| DebianStep (patch : Patch).

Definition step (self : Spider) (s : Step) : Spider * list Output :=
  match s with
  | LinkStep response extracted => parse_link response self extracted
  | DebianStep patch => debian_patch self patch
  end.

Definition run : Spider → list Step → Spider * list Output :=
  for_each step.

(** The iterations a response unfolds to. *)
Definition steps_of (self : Spider) (page : Callback * Response) : list Step :=
  match page.1 with
  | parse_callback =>
      LinkStep page.2 <$>
        extract_links (deny_domains self) (get_xpath (url page.2)) page.2
  | parse_debian_callback => DebianStep <$> debian_parse (vuln_id self)
  end.

(** The links [parse] iterates over. *)
Definition page_links (self : Spider) (response : Response) : list string :=
  extract_links (deny_domains self) (get_xpath (url response)) response.

(** The hostname of a URL is one of the important domains. *)
Definition important (self : Spider) (u : string) : Prop :=
  ∃ domain, hostname u = Some domain ∧ domain ∈ important_domains self.


(** A link the extractor's domain filter keeps. *)
Definition allowed (self : Spider) (l : string) : Prop :=
  url_is_from_any_domain l (deny_domains self) = false.

(** The step classifies as a patch. *)
Definition patch_step (s : Step) : Prop :=
  match s with
  | LinkStep response extracted =>
      is_Some (is_patch (urljoin (url response) extracted))
  | DebianStep _ => True
  end.

(** The patch link a step would collect. *)
Definition step_link (s : Step) : option string :=
  match s with
  | LinkStep response extracted => is_patch (urljoin (url response) extracted)
  | DebianStep patch => Some (patch_link patch)
  end.

End WithCollaborators.

Definition is_item (o : Output) : Prop :=
  match o with Item _ => True | Follow _ => False end.

(** The patch links among what was yielded. *)
Definition item_links (out : list Output) : list string :=
  omap (λ o, match o with Item p => Some (patch_link p) | Follow _ => None end) out.

End DefaultSpider.

(** ** base_spider.py *)

Module BaseSpider.
Import Http.

(** What consuming a parse callable gives: the items it yielded, or an
    exception raised before the first of them. *)
Inductive Outcome :=
| Yielded (items : list string)
| Raised.

Definition Callable : Type := Response → Outcome.

(** What the spider calls outside this file.
    - [normal_xpaths url] is [Resource.get_resource(url).normal_xpaths];
    - [xpath_extract response xpath] is [response.xpath(xpath).extract()];
    - [json_to_xml body] is [dicttoxml.dicttoxml(json.loads(body.decode()))],
      [None] when the body is no JSON document. *)
Class Collaborators := {
  normal_xpaths : string → list string;
  xpath_extract : Response → string → list string;
  json_to_xml : string → option string
}.

(** [_callback_by_url] of [BaseSpider] itself. *)
Definition base_callback_by_url (response : Response) : option Callable := None.

Section WithCollaborators.
Context `{!Collaborators}.

(** The method subclasses override to select a callable by URL. *)
Variable _callback_by_url : Response → option Callable.

(** [_scrape] *)
Definition _scrape (response : Response) : list string :=
  xpath ← normal_xpaths (url response); xpath_extract response xpath.

(** [_generate_items_and_requests] *)
Definition _generate_items_and_requests (response : Response) : list string :=
  _scrape response.

(** [parse_default] *)
Definition parse_default : Callable :=
  λ response, Yielded (_generate_items_and_requests response).

(** [_json_response_to_xml] *)
Definition _json_response_to_xml (response : Response) : option Response :=
  xml ← json_to_xml (body response);
  Some {| url := url response; headers := headers response; body := xml |}.

(** [parse_json] *)
Definition parse_json : Callable :=
  λ response,
    match _json_response_to_xml response with
    | Some response' => Yielded (_generate_items_and_requests response')
    | None => Raised
    end.

(** [_callback_by_content] *)
Definition _callback_by_content (response : Response) : option Callable :=
  match headers response !! "Content-Type" with
  | None => None
  | Some content_type =>
      if String.prefix "application/json" content_type
      then Some parse_json
      else Some parse_default
  end.

(** [_callback] *)
Definition _callback (response : Response) : option Callable :=
  match _callback_by_url response with
  | Some callback => Some callback
  | None => _callback_by_content response
  end.

(** [parse] *)
Definition parse (response : Response) : Outcome :=
  match _callback response with
  | Some parse_callable => parse_callable response
  | None => Yielded []
  end.

End WithCollaborators.

End BaseSpider.

(** ** patchfinder.py *)

Module Patchfinder.

(** The namespace [argparse] returns. *)
Record Args := {
  vuln_id : string;
  depth : Z;
  patch_limit : Z;
  deny_domains : list string;
  imp_domains : list string;
  log : bool
}.

(** The settings handed to [CrawlerProcess]. *)
Record Settings := {
  USER_AGENT : string;
  ITEM_PIPELINES : list (string * Z);
  DEPTH_LIMIT : Z;
  LOG_ENABLED : bool
}.

(** What the program does to its surroundings: the lines printed, and the
    crawls started ([process.crawl] followed by [process.start]), each
    with its settings and the spider it constructs. Fetches are only
    issued by a started crawl. *)
Record World := {
  stdout : list string;
  crawls : list (Settings * DefaultSpider.Spider)
}.

Definition print (line : string) (w : World) : World :=
  {| stdout := stdout w ++ [line]; crawls := crawls w |}.

Definition start_crawl (settings : Settings) (kwargs : DefaultSpider.Kwargs)
    (w : World) : World :=
  {| stdout := stdout w;
     crawls := crawls w ++ [(settings, DefaultSpider.init kwargs)] |}.

Section WithContext.

(** [context.create_vuln], [None] standing for every falsy result. *)
Variable create_vuln : string → option Vulnerability.Vuln.

(** [spawn_crawler] *)
Definition spawn_crawler (args : Args) (w : World) : bool * World :=
  match create_vuln (vuln_id args) with
  | None => (false, w)
  | Some vuln =>
      let settings :=
        {| USER_AGENT := "Mozilla/4.0 (compatible; MSIE 7.0; Windows NT 5.1)";
           ITEM_PIPELINES :=
             [("patchfinder.spiders.pipelines.PatchPipeline", 300)];
           DEPTH_LIMIT := depth args;
           LOG_ENABLED := log args |} in
      let kwargs :=
        {| DefaultSpider.kw_vuln := vuln;
           DefaultSpider.kw_patch_limit := Some (patch_limit args);
           DefaultSpider.kw_important_domains := Some (imp_domains args);
           DefaultSpider.kw_deny_domains := Some (deny_domains args) |} in
      (true, start_crawl settings kwargs w)
  end.

(** The body of [if __name__ == '__main__'] after the arguments are
    parsed. Either branch falls off the end of the script, so the
    interpreter exits with status 0. *)
Definition main (args : Args) (w : World) : Z * World :=
  let '(spawn_return, w1) := spawn_crawler args w in
  if spawn_return
  then (0, print "Crawling completed." w1)
  else (0, print "Can't recognize that vulnerability." w1).

End WithContext.

Definition exit_status (r : Z * World) : Z := r.1.
Definition world_after (r : Z * World) : World := r.2.

(** A process status communicates failure when it is not the status of
    success. *)
Definition communicates_failure (status : Z) : Prop := status ≠ 0.

End Patchfinder.

(** ** Alias resolution *)

Module AliasResolver.
Import Http Vulnerability.

Record FetchRequest := { fetch_url : string }.

Record AliasState := {
  resolved_aliases : gmap string Vuln;
  pending_generic : gset string
}.

(** What the resolver relies on: [resolve] is [EntrypointRegistry.resolve]
    ([None] for [UnrecognizedIdentifier]); [alias_ids] and [generic_ids]
    are the identifiers the extraction rules of the descriptor's page type
    find on a page. *)
Class Registry := {
  resolve : string → option Vuln;
  alias_ids : Vuln → Response → list string;
  generic_ids : Vuln → Response → list string
}.

Section WithRegistry.
Context `{!Registry}.

(** Modelled from the spec: [DefaultSpider.determine_aliases] is not in
    the sources at hand (only its tests are); this is step 2 of section
    4.3 for one identifier: an identifier not yet in [resolved_aliases]
    is resolved and recorded, and no request is emitted for it. An
    identifier the registry does not recognise is skipped. *)
Definition record_alias (st : AliasState) (id : string) : AliasState :=
  match resolved_aliases st !! id with
  | Some _ => st
  | None =>
      match resolve id with
      | Some descriptor =>
          {| resolved_aliases := <[id := descriptor]> (resolved_aliases st);
             pending_generic := pending_generic st |}
      | None => st
      end
  end.

(** Modelled from the spec: step 3 of section 4.3 for one identifier of
    [DefaultSpider.determine_aliases], which is not in the sources at
    hand: a generic advisory not yet in [pending_generic] is added to it
    and one request for its [base_url] is emitted (none when the
    registry does not recognise the identifier). *)
Definition request_generic (st : AliasState) (id : string)
    : AliasState * list FetchRequest :=
  if bool_decide (id ∈ pending_generic st) then (st, [])
  else
    ({| resolved_aliases := resolved_aliases st;
        pending_generic := {[ id ]} ∪ pending_generic st |},
     match resolve id with
     | Some descriptor => [ {| fetch_url := base_url descriptor |} ]
     | None => []
     end).

(** Nothing is left to record for an identifier: it is resolved, or the
    registry does not recognise it. *)
Definition settled (st : AliasState) (id : string) : Prop :=
  is_Some (resolved_aliases st !! id) ∨ resolve id = None.

(** Modelled from the spec: [DefaultSpider.determine_aliases], which is
    not in the sources at hand, following the four steps of section 4.3. *)
Definition determine_aliases (st : AliasState) (descriptor : Vuln)
    (page : Response) : AliasState * list FetchRequest :=
  let st1 := foldl record_alias st (alias_ids descriptor page) in
  for_each request_generic st1 (generic_ids descriptor page).

End WithRegistry.

End AliasResolver.

(** ** A small site, to run the definitions on *)

Module Sample.
Import Http Items Vulnerability.

Definition ends_with (suffix s : string) : bool :=
  String.eqb
    (String.substring (String.length s - String.length suffix)%nat
                      (String.length suffix) s)
    suffix.

Fixpoint until_slash (s : string) : string :=
  match s with
  | EmptyString => EmptyString
  | String c s' => if Ascii.eqb c "/"%char then EmptyString else String c (until_slash s')
  end.

(** The host of an [https] URL without port or user. *)
Definition host_of (u : string) : option string :=
  if String.prefix "https://" u
  then Some (until_slash (String.substring 8 (String.length u - 8)%nat u))
  else None.

Fixpoint split_on (sep : Ascii.ascii) (s : string) : list string :=
  match s with
  | EmptyString => [EmptyString]
  | String c s' =>
      match split_on sep s' with
      | w :: ws => if Ascii.eqb c sep then EmptyString :: w :: ws else String c w :: ws
      | [] => [String c EmptyString]
      end
  end.

(** Pages whose body is the list of their links, separated by spaces. *)
Definition hrefs (xpaths : list string) (response : Response) : list string :=
  filter (λ l, l ≠ EmptyString) (split_on " "%char (body response)).

Definition openjpeg_patch : Patch :=
  {| patch_link := "https://github.com/uclouvain/openjpeg/commit/162f.patch";
     reaching_path := "https://security-tracker.debian.org/tracker/CVE-2016-4796" |}.

Definition collaborators : DefaultSpider.Collaborators :=
  {| DefaultSpider.is_patch := λ l, if ends_with ".patch" l then Some l else None;
     DefaultSpider.get_xpath := λ _, ["//body"];
     DefaultSpider.candidate_links := hrefs;
     DefaultSpider.url_is_from_any_domain :=
       λ l domains,
         match host_of l with
         | Some h => bool_decide (h ∈ domains)
         | None => false
         end;
     DefaultSpider.urljoin := λ _ l, l;
     DefaultSpider.hostname := host_of;
     DefaultSpider.debian_parse :=
       λ id, if String.eqb id "CVE-2016-4796" then [openjpeg_patch] else [] |}.

Definition page (u links : string) : Response :=
  {| url := u; headers := {[ "Content-Type" := "text/html" ]}; body := links |}.

Definition cve : Vuln :=
  {| vuln_id := "CVE-2016-4796";
     kind := Specific;
     base_url := "https://cve.mitre.org/cgi-bin/cvename.cgi?name=CVE-2016-4796";
     entrypoint_URLs :=
       ["https://nvd.nist.gov/vuln/detail/CVE-2016-4796";
        "https://security-tracker.debian.org/tracker/CVE-2016-4796"] |}.

Definition dsa : Vuln :=
  {| vuln_id := "DSA-4431-1";
     kind := Generic;
     base_url := "https://security-tracker.debian.org/tracker/DSA-4431-1";
     entrypoint_URLs := [] |}.

Definition spider (vuln : Vuln) (limit : Z) (important : list string)
    : DefaultSpider.Spider :=
  DefaultSpider.init
    {| DefaultSpider.kw_vuln := vuln;
       DefaultSpider.kw_deny_domains := None;
       DefaultSpider.kw_important_domains := Some important;
       DefaultSpider.kw_patch_limit := Some limit |}.

Definition mixed_page : Response :=
  page "https://lists.fedoraproject.org/message/5FFMOZOF/"
       "https://bugzilla.redhat.com/show_bug.cgi?id=1317822 https://github.com/uclouvain/openjpeg/commit/162f.patch https://github.com/uclouvain/openjpeg/commit/a1b2.patch https://twitter.com/share https://github.com/uclouvain/openjpeg/issues/771".

Definition debian_page : Response :=
  page "https://security-tracker.debian.org/tracker/CVE-2016-4796" "".

Definition patches_page : Response :=
  page "https://tracker.example.org/CVE-2019-14452"
       "https://github.com/a/b/commit/1.patch https://github.com/a/b/commit/2.patch https://github.com/a/b/commit/3.patch".

(** A scraper for [BaseSpider] on the same pages. *)
Definition scraper : BaseSpider.Collaborators :=
  {| BaseSpider.normal_xpaths := λ _, ["//a/@href"];
     BaseSpider.xpath_extract := λ response _, hrefs [] response;
     BaseSpider.json_to_xml :=
       λ b, if String.prefix "{" b then Some b else None |}.

Definition bare_page : Response :=
  {| url := "https://bugzilla.redhat.com/show_bug.cgi?id=1317822";
     headers := ∅;
     body := "https://github.com/uclouvain/openjpeg/issues/771" |}.

(** A registry that knows CVE and GLSA identifiers. *)
Definition create_vuln (id : string) : option Vuln :=
  if String.prefix "CVE-" id then
    Some {| vuln_id := id; kind := Specific;
            base_url := "https://cve.mitre.org/cgi-bin/cvename.cgi?name=" +:+ id;
            entrypoint_URLs := ["https://nvd.nist.gov/vuln/detail/" +:+ id] |}
  else if String.prefix "GLSA-" id then
    Some {| vuln_id := id; kind := Generic;
            base_url := "https://gitweb.gentoo.org/data/glsa.git/plain/" +:+ id;
            entrypoint_URLs := [] |}
  else None.

Definition registry : AliasResolver.Registry :=
  {| AliasResolver.resolve := create_vuln;
     AliasResolver.alias_ids :=
       λ _ response,
         filter (λ w, String.prefix "CVE-" w = true)
                (split_on " " (body response));
     AliasResolver.generic_ids :=
       λ _ response,
         filter (λ w, String.prefix "GLSA-" w = true)
                (split_on " " (body response)) |}.

Definition glsa_page : Response :=
  page "https://gitweb.gentoo.org/data/glsa.git/plain/GLSA-200602-01"
       "CVE-2005-4048 GLSA-200601-06 CVE-2005-4048".

Definition no_aliases : AliasResolver.AliasState :=
  {| AliasResolver.resolved_aliases := ∅;
     AliasResolver.pending_generic := ∅ |}.

Definition args (id : string) : Patchfinder.Args :=
  {| Patchfinder.vuln_id := id;
     Patchfinder.depth := 1;
     Patchfinder.patch_limit := 100;
     Patchfinder.deny_domains := ["facebook.com"; "twitter.com"];
     Patchfinder.imp_domains := [];
     Patchfinder.log := true |}.

Definition quiet : Patchfinder.World :=
  {| Patchfinder.stdout := []; Patchfinder.crawls := [] |}.

End Sample.

(** ** Views of a crawl used in the statements below *)

Module DefaultSpiderViews.
Import Http Items DefaultSpider.

(** How many more patches the spider may collect. *)
Definition remaining (self : Spider) : nat :=
  Z.to_nat (patch_limit self - Z.of_nat (length (patches self))).

(** The requests among what was yielded. *)
Definition requests_of (out : list Output) : list Request :=
  omap (λ o, match o with Follow r => Some r | Item _ => None end) out.

(** The request [start_requests] yields for a start URL: it holds the URL
    the constructor stored, has priority 0, and goes to [parse_debian]
    exactly when the start URL starts with the address of the Debian
    tracker. *)
Definition starts `{!RequestConstructor} (u : string) (r : Request) : Prop :=
  stored_url u = Some (request_url r)
  ∧ priority r = 0
  ∧ (callback r = parse_debian_callback ↔
     String.prefix "https://security-tracker.debian.org" u = true)
  ∧ (callback r = parse_callback ↔
     String.prefix "https://security-tracker.debian.org" u = false).

(** All the pages of a crawl go to [parse]. *)
Definition parse_only (pages : list (Callback * Response)) : Prop :=
  Forall (λ page, page.1 = parse_callback) pages.

Section WithCollaborators.
Context `{!Collaborators}.

(** The request [parse] yields for an extracted link that is no patch. *)
Definition follow (self : Spider) (response : Response) (extracted : string)
    : Output :=
  let link := urljoin (url response) extracted in
  Follow {| request_url := link;
            callback := parse_callback;
            priority := domain_priority self link |}.

(** The request of [follow]. *)
Definition follow_request (self : Spider) (response : Response)
    (extracted : string) : Request :=
  let link := urljoin (url response) extracted in
  {| request_url := link;
     callback := parse_callback;
     priority := domain_priority self link |}.

(** The patch links [is_patch] finds among the links of a page, in the
    order of the page. *)
Definition offered (self : Spider) (response : Response) : list string :=
  omap (λ l, is_patch (urljoin (url response) l)) (page_links self response).

(** A page offers a patch link: to [parse] through one of its links, to
    [parse_debian] through one of the patches of the Debian parser. *)
Definition offers (self : Spider) (page : Callback * Response) (pl : string)
    : Prop :=
  match page.1 with
  | parse_callback => pl ∈ offered self page.2
  | parse_debian_callback => pl ∈ patch_link <$> debian_parse (vuln_id self)
  end.

End WithCollaborators.

End DefaultSpiderViews.

(** ** The domain filter of the link extractor *)

Module LinkFilter.
Import Http DefaultSpider.

(** [s.endswith(suffix)] *)
Definition ends_with (suffix s : string) : bool :=
  String.eqb
    (String.substring (String.length s - String.length suffix)%nat
                      (String.length suffix) s)
    suffix.

(** A host is a domain or one of its subdomains. *)
Definition from_domain (host d : string) : Prop :=
  host = d ∨ ends_with ("." +:+ d) host = true.

Section WithUrlparse.

(** [netloc url] is [urlparse(url).netloc] and [lower] is [str.lower]. *)
Variable netloc : string → string.
Variable lower : string → string.

(** [scrapy.utils.url.url_is_from_any_domain], the test
    [LxmlLinkExtractor] applies to every link for its [deny_domains]: the
    lower-cased netloc of the URL, when it is not empty, is one of the
    domains, lower-cased, or ends with a dot followed by one of them. *)
Definition netloc_is_from_any_domain (u : string) (domains : list string)
    : bool :=
  let host := lower (netloc u) in
  if bool_decide (host = EmptyString) then false
  else bool_decide (Exists (from_domain host) (lower <$> domains)).


End WithUrlparse.

End LinkFilter.

(** More of the sample site. *)

Module SampleMore.
Import Http.

(** [Request] keeps a URL with a scheme as it is and rejects one without
    (no URL of the sample needs escaping). *)
Definition request_constructor : DefaultSpider.RequestConstructor :=
  {| DefaultSpider.stored_url :=
       λ u, match String.index 0 "://" u with
            | Some _ => Some u
            | None => None
            end |}.

Definition lower_ascii (c : Ascii.ascii) : Ascii.ascii :=
  let n := Ascii.nat_of_ascii c in
  if ((65 <=? n) && (n <=? 90))%nat then Ascii.ascii_of_nat (n + 32) else c.

Fixpoint lower (s : string) : string :=
  match s with
  | EmptyString => EmptyString
  | String c s' => String (lower_ascii c) (lower s')
  end.

Fixpoint until_colon (s : string) : string :=
  match s with
  | EmptyString => EmptyString
  | String c s' =>
      if Ascii.eqb c ":"%char then EmptyString else String c (until_colon s')
  end.

(** The netloc of an [https] URL, and its hostname: the netloc without the
    port, lower-cased (no URL of the sample has user information). *)
Definition netloc (u : string) : string := default EmptyString (Sample.host_of u).

Definition hostname (u : string) : option string :=
  (λ h, lower (until_colon h)) <$> Sample.host_of u.


(** The sample site with a classifier that gives a commit page of GitHub
    the link of its patch. *)
Definition github_collaborators : DefaultSpider.Collaborators :=
  {| DefaultSpider.is_patch :=
       λ l, if Sample.ends_with ".patch" l then Some l
            else match String.index 0 "/commit/" l with
                 | Some _ => Some (l +:+ ".patch")
                 | None => None
                 end;
     DefaultSpider.get_xpath := λ _, ["//body"];
     DefaultSpider.candidate_links := Sample.hrefs;
     DefaultSpider.url_is_from_any_domain :=
       LinkFilter.netloc_is_from_any_domain netloc lower;
     DefaultSpider.urljoin := λ _ l, l;
     DefaultSpider.hostname := hostname;
     DefaultSpider.debian_parse := λ _, [] |}.



Definition json_page (content : string) : Response :=
  {| url := "https://access.redhat.com/labs/securitydataapi/cve.json?advisory=foobar";
     headers := {[ "Content-Type" := "application/json; charset=utf-8" ]};
     body := content |}.

(** A subclass hook: pages of the Red Hat API are parsed as JSON whatever
    their headers say. *)
Definition redhat_hook `{!BaseSpider.Collaborators} (response : Response)
    : option BaseSpider.Callable :=
  if String.prefix "https://access.redhat.com/" (url response)
  then Some BaseSpider.parse_json
  else None.


End SampleMore.

(** * Properties *)

(** ** Generators *)

Section GeneratorFacts.

Context {S A B : Type}.
Implicit Types (body : S → A → S * list B) (self : S) (xs : list A).

Lemma for_each_cons body self x xs :
  for_each body self (x :: xs) =
    ((for_each body (body self x).1 xs).1,
     (body self x).2 ++ (for_each body (body self x).1 xs).2).
Proof.
  simpl. destruct (body self x) as [s1 o1]. simpl.
  by destruct (for_each body s1 xs).
Qed.

Lemma for_each_app body self xs ys :
  for_each body self (xs ++ ys) =
    ((for_each body (for_each body self xs).1 ys).1,
     (for_each body self xs).2 ++ (for_each body (for_each body self xs).1 ys).2).
Proof.
  revert self. induction xs as [|x xs IH]; intros self.
  - simpl. by destruct (for_each body self ys).
  - rewrite <- app_comm_cons, !for_each_cons, IH. simpl.
    by rewrite app_assoc.
Qed.

Lemma for_each_invariant (P : S → Prop) body :
  (∀ self x, P self → P (body self x).1) →
  ∀ xs self, P self → P (for_each body self xs).1.
Proof.
  intros Hbody xs. induction xs as [|x xs IH]; intros self HP; [done|].
  rewrite for_each_cons. simpl. apply IH, Hbody, HP.
Qed.

Lemma for_each_idle body self xs :
  (∀ x, x ∈ xs → body self x = (self, [])) →
  for_each body self xs = (self, []).
Proof.
  induction xs as [|x xs IH]; intros Hidle; [done|].
  rewrite for_each_cons, (Hidle x) by apply list_elem_of_here. simpl.
  rewrite IH; [done|]. intros y Hy. apply Hidle. by apply list_elem_of_further.
Qed.

Lemma for_each_fmap {A'} (f : A' → A) body self (ys : list A') :
  for_each body self (f <$> ys) = for_each (λ s y, body s (f y)) self ys.
Proof.
  revert self. induction ys as [|y ys IH]; intros self; [done|].
  rewrite fmap_cons, for_each_cons, IH. simpl.
  destruct (body self (f y)) as [s1 o1]. simpl.
  by destruct (for_each _ s1 ys).
Qed.

(** What is yielded comes from some iteration, run in a state that
    satisfies every invariant of the loop. *)
Lemma for_each_yielded (P : S → Prop) body self xs o :
  (∀ s x, P s → P (body s x).1) → P self →
  o ∈ (for_each body self xs).2 →
  ∃ s x, P s ∧ x ∈ xs ∧ o ∈ (body s x).2.
Proof.
  intros Hbody. revert self. induction xs as [|x xs IH]; intros self HP.
  - simpl. intros Ho. by apply elem_of_nil in Ho.
  - rewrite for_each_cons. simpl. intros [Ho|Ho]%elem_of_app.
    + exists self, x. split_and!; [done | apply list_elem_of_here | done].
    + destruct (IH _ (Hbody _ x HP) Ho) as (s & y & Hs & Hy & Hout).
      exists s, y. split_and!; [done | by apply list_elem_of_further | done].
Qed.

End GeneratorFacts.

(** ** default_spider.py *)

Module DefaultSpiderFacts.
Import Http Items DefaultSpider.

Lemma below_limit_true self :
  below_limit self = true ↔ Z.of_nat (length (patches self)) < patch_limit self.
Proof. unfold below_limit. apply bool_decide_eq_true. Qed.

Lemma below_limit_false self : below_limit self = false ↔ limit_reached self.
Proof.
  unfold below_limit, limit_reached. rewrite bool_decide_eq_false. lia.
Qed.

Lemma length_add_patch self link :
  length (patches (add_patch self link)) = Datatypes.S (length (patches self)).
Proof. simpl. rewrite length_app. simpl. lia. Qed.

Lemma same_settings_refl s : same_settings s s.
Proof. by repeat split. Qed.

Lemma same_settings_trans s1 s2 s3 :
  same_settings s1 s2 → same_settings s2 s3 → same_settings s1 s3.
Proof. unfold same_settings. intuition congruence. Qed.

Lemma same_settings_add_patch s link : same_settings s (add_patch s link).
Proof. by repeat split. Qed.

Section WithCollaborators.
Context `{!Collaborators}.

(** An iteration of either loop does one of three things. *)
Lemma step_cases self s :
  step self s = (self, [])
  ∨ (∃ r, step self s = (self, [Follow r]) ∧ below_limit self = true)
  ∨ (∃ p, step self s = (add_patch self (patch_link p), [Item p])
          ∧ below_limit self = true).
Proof.
  destruct s as [response extracted|patch]; simpl.
  - unfold parse_link.
    destruct (is_patch _) as [pl|], (below_limit self) eqn:Hb; auto.
    + case_bool_decide; [auto|]. right; right.
      by exists {| patch_link := pl; reaching_path := url response |}.
    + right; left. by eexists.
  - unfold debian_patch. destruct (below_limit self) eqn:Hb; [|auto].
    right; right. by eexists.
Qed.

Lemma step_within_limit self s :
  within_limit self → within_limit (step self s).1.
Proof.
  intros Hin.
  destruct (step_cases self s) as [->|[(r & -> & _)|(p & -> & Hb)]]; try done.
  apply below_limit_true in Hb. unfold within_limit. simpl fst.
  rewrite length_add_patch. simpl patch_limit. lia.
Qed.

Lemma step_limit_reached self s :
  limit_reached self → step self s = (self, []).
Proof.
  intros Hr%below_limit_false.
  destruct (step_cases self s) as [->|[(r & _ & Hb)|(p & _ & Hb)]];
    [done|congruence..].
Qed.

Lemma step_same_settings self s : same_settings self (step self s).1.
Proof.
  destruct (step_cases self s) as [->|[(r & -> & _)|(p & -> & _)]];
    simpl; auto using same_settings_refl, same_settings_add_patch.
Qed.

(** [self.patches] grows by exactly the links of the patches yielded. *)
Lemma step_patches self s :
  patches (step self s).1 = patches self ++ item_links (step self s).2.
Proof.
  destruct (step_cases self s) as [->|[(r & -> & _)|(p & -> & _)]];
    simpl; by rewrite ?app_nil_r.
Qed.

Lemma run_app self steps more :
  run self (steps ++ more) =
    ((run (run self steps).1 more).1,
     (run self steps).2 ++ (run (run self steps).1 more).2).
Proof. apply for_each_app. Qed.

Lemma run_within_limit self steps :
  within_limit self → within_limit (run self steps).1.
Proof. apply for_each_invariant. intros. by apply step_within_limit. Qed.

Lemma run_limit_reached self steps :
  limit_reached self → run self steps = (self, []).
Proof. intros Hr. apply for_each_idle. intros. by apply step_limit_reached. Qed.

Lemma run_same_settings self steps : same_settings self (run self steps).1.
Proof.
  revert self. induction steps as [|s steps IH]; intros self.
  - apply same_settings_refl.
  - unfold run. rewrite for_each_cons. simpl.
    eapply same_settings_trans; [apply step_same_settings | apply IH].
Qed.

Lemma item_links_app out1 out2 :
  item_links (out1 ++ out2) = item_links out1 ++ item_links out2.
Proof. apply omap_app. Qed.

Lemma run_patches self steps :
  patches (run self steps).1 = patches self ++ item_links (run self steps).2.
Proof.
  revert self. induction steps as [|s steps IH]; intros self.
  - simpl. by rewrite app_nil_r.
  - unfold run. rewrite for_each_cons. simpl.
    fold (run (step self s).1 steps).
    by rewrite IH, step_patches, item_links_app, app_assoc.
Qed.

(** The two callbacks are runs of their loop iterations. *)
Lemma parse_run self response :
  parse self response = run self (steps_of self (parse_callback, response)).
Proof.
  unfold parse, run, steps_of. simpl. by rewrite for_each_fmap.
Qed.

Lemma parse_debian_run self response :
  parse_debian self response =
    run self (steps_of self (parse_debian_callback, response)).
Proof.
  unfold parse_debian, run, steps_of. simpl. by rewrite for_each_fmap.
Qed.

Lemma handle_run self page : handle self page = run self (steps_of self page).
Proof.
  destruct page as [[] response]; [apply parse_run | apply parse_debian_run].
Qed.

Lemma steps_of_same_settings s s' page :
  same_settings s s' → steps_of s' page = steps_of s page.
Proof.
  intros (_ & Hv & _ & Hd & _). unfold steps_of.
  by rewrite Hv, Hd.
Qed.

(** A crawl is the run of the iterations of its pages, one page after
    the other. *)
Lemma crawl_run self pages :
  crawl self pages = run self (pages ≫= steps_of self).
Proof.
  revert self. induction pages as [|page pages IH]; intros self; [done|].
  unfold crawl. rewrite for_each_cons, handle_run. fold crawl.
  rewrite IH, bind_cons, run_app.
  assert (pages ≫= steps_of (run self (steps_of self page)).1
          = pages ≫= steps_of self) as ->; [|done].
  apply list_bind_ext; [|done]. intros p.
  apply steps_of_same_settings, run_same_settings.
Qed.

Lemma run_length_mono self steps :
  (length (patches self) ≤ length (patches (run self steps).1))%nat.
Proof. rewrite run_patches, length_app. lia. Qed.

Lemma run_patch_limit self steps :
  patch_limit (run self steps).1 = patch_limit self.
Proof. apply run_same_settings. Qed.

Lemma patch_step_link s : patch_step s → is_Some (step_link s).
Proof. destruct s; simpl; eauto. Qed.

(** Below the limit, an iteration leaves the patch link of its link in
    [self.patches], whether it was there or is added. *)
Lemma step_collects self s pl :
  below_limit self = true → step_link s = Some pl →
  pl ∈ patches (step self s).1.
Proof.
  intros Hb Hl. destruct s as [response extracted|patch]; simpl in *.
  - unfold parse_link. rewrite Hl, Hb.
    case_bool_decide; simpl; [done|].
    apply elem_of_app. right. by apply list_elem_of_singleton.
  - unfold debian_patch. rewrite Hb. simpl. injection Hl as <-.
    apply elem_of_app. right. by apply list_elem_of_singleton.
Qed.

Lemma run_collects steps self s pl :
  below_limit (run self steps).1 = true →
  s ∈ steps → step_link s = Some pl →
  pl ∈ patches (run self steps).1.
Proof.
  revert self. induction steps as [|s0 steps IH]; intros self Hb Hs Hl.
  - by apply elem_of_nil in Hs.
  - change (s0 :: steps) with ([s0] ++ steps) in Hb |- *.
    rewrite run_app in Hb |- *. simpl fst in *.
    assert ((run self [s0]).1 = (step self s0).1) as Hone.
    { unfold run. by rewrite for_each_cons. }
    rewrite Hone in *.
    apply elem_of_cons in Hs as [->|Hs]; [|by apply IH].
    rewrite run_patches. apply elem_of_app. left.
    apply step_collects; [|done].
    apply below_limit_true. apply below_limit_true in Hb.
    rewrite run_patch_limit in Hb.
    pose proof (run_length_mono (step self s0).1 steps) as Hm.
    pose proof (step_same_settings self s0) as (_ & _ & _ & _ & _ & Hlim).
    rewrite Hlim in Hb.
    assert (length (patches self) ≤ length (patches (step self s0).1))%nat.
    { rewrite step_patches, length_app. lia. }
    lia.
Qed.

Lemma step_only_items self s :
  patch_step s → Forall is_item (step self s).2.
Proof.
  destruct s as [response extracted|patch]; simpl.
  - intros [pl Hpl]. unfold parse_link. rewrite Hpl.
    destruct (below_limit self); [|constructor].
    case_bool_decide; repeat constructor.
  - intros _. unfold debian_patch.
    destruct (below_limit self); repeat constructor.
Qed.

Lemma run_only_items self steps :
  Forall patch_step steps → Forall is_item (run self steps).2.
Proof.
  intros Hall. revert self.
  induction Hall as [|s steps Hs _ IH]; intros self; [constructor|].
  unfold run. rewrite for_each_cons. simpl.
  apply Forall_app. split; [by apply step_only_items | apply IH].
Qed.

Lemma items_length out :
  Forall is_item out → length (item_links out) = length out.
Proof.
  induction 1 as [|[p|r] out Ho _ IH]; [done| |done].
  change (item_links (Item p :: out)) with (patch_link p :: item_links out).
  simpl. by rewrite IH.
Qed.

Lemma two_distinct (a b : string) (l : list string) :
  a ≠ b → a ∈ l → b ∈ l → (2 ≤ length l)%nat.
Proof.
  intros Hne Ha Hb. destruct l as [|x [|y l]]; simpl; [| |lia].
  - by apply elem_of_nil in Ha.
  - apply list_elem_of_singleton in Ha, Hb. congruence.
Qed.

(** A fresh spider with [patch_limit = 2], run over iterations that all
    classify as patches and offer two different patch links, yields two
    patches and nothing else. *)
Lemma exactly_two_items self steps :
  patches self = [] → patch_limit self = 2 →
  Forall patch_step steps →
  (∃ s1 s2, s1 ∈ steps ∧ s2 ∈ steps ∧ step_link s1 ≠ step_link s2) →
  ∃ p1 p2, (run self steps).2 = [Item p1; Item p2].
Proof.
  intros Hnil Hlim Hall (s1 & s2 & Hs1 & Hs2 & Hne).
  assert (within_limit (run self steps).1) as Hin.
  { apply run_within_limit. unfold within_limit. rewrite Hnil, Hlim. simpl. lia. }
  pose proof (run_patches self steps) as Hlog. rewrite Hnil in Hlog. simpl in Hlog.
  pose proof (items_length _ (run_only_items self steps Hall)) as Hlen.
  pose proof (run_only_items self steps Hall) as Hitems.
  unfold within_limit in Hin. rewrite run_patch_limit, Hlim in Hin.
  assert (2 ≤ length (patches (run self steps).1))%nat as Hge.
  { destruct (decide (length (patches (run self steps).1) < 2)%nat) as [Hlt|]; [|lia].
    assert (below_limit (run self steps).1 = true) as Hb.
    { apply below_limit_true. rewrite run_patch_limit, Hlim. lia. }
    destruct (patch_step_link s1) as [pl1 Hpl1].
    { by eapply Forall_forall in Hall. }
    destruct (patch_step_link s2) as [pl2 Hpl2].
    { by eapply Forall_forall in Hall. }
    apply (two_distinct pl1 pl2); [congruence| |].
    - by apply (run_collects steps self s1).
    - by apply (run_collects steps self s2). }
  rewrite Hlog, Hlen in Hin, Hge.
  destruct (run self steps).2 as [|o1 [|o2 [|o3 out]]]; simpl in *; try lia.
  apply Forall_cons in Hitems as [H1 Hitems].
  apply Forall_cons in Hitems as [H2 _].
  destruct o1 as [p1|], o2 as [p2|]; try done. by exists p1, p2.
Qed.

(** Link iterations alone never collect a patch link twice. *)
Lemma link_steps_no_duplicates self steps :
  NoDup (patches self) →
  Forall (λ s, ∃ response extracted, s = LinkStep response extracted) steps →
  NoDup (patches (run self steps).1).
Proof.
  intros Hnd Hall. revert self Hnd.
  induction Hall as [|s steps (response & extracted & ->) _ IH];
    intros self Hnd; [done|].
  unfold run. rewrite for_each_cons. apply IH. simpl. unfold parse_link.
  destruct (is_patch _) as [pl|], (below_limit self); simpl; try done.
  case_bool_decide; simpl; [done|].
  apply NoDup_app. split_and!; [done| |apply NoDup_singleton].
  intros x Hx ->%list_elem_of_singleton. done.
Qed.

Lemma parse_unfold self response :
  parse self response =
    for_each (parse_link response) self (page_links self response).
Proof. done. Qed.

Lemma parse_link_same_settings response self extracted :
  ∀ start, same_settings start self →
    same_settings start (parse_link response self extracted).1.
Proof.
  intros start Hs. eapply same_settings_trans; [done|].
  apply (step_same_settings self (LinkStep response extracted)).
Qed.

Lemma domain_priority_same_settings s s' u :
  same_settings s s' → domain_priority s' u = domain_priority s u.
Proof.
  intros (_ & _ & _ & _ & Hi & _). unfold domain_priority. by rewrite Hi.
Qed.




(** A fresh spider is within a limit that is not negative. *)
Lemma init_within_limit kwargs :
  0 ≤ default class_patch_limit (kw_patch_limit kwargs) →
  within_limit (init kwargs).
Proof. intros Hlim. unfold within_limit. simpl. lia. Qed.

(** What link iterations yield never repeats a patch link, nor one that was
    collected before. *)
Lemma link_steps_items_no_duplicates self steps :
  NoDup (patches self) →
  Forall (λ s, ∃ response extracted, s = LinkStep response extracted) steps →
  NoDup (item_links (run self steps).2)
  ∧ ∀ pl, pl ∈ patches self → pl ∉ item_links (run self steps).2.
Proof.
  intros Hnd Hall.
  pose proof (link_steps_no_duplicates self steps Hnd Hall) as Hafter.
  rewrite run_patches in Hafter.
  apply NoDup_app in Hafter as (_ & Hdisjoint & Hitems). by split.
Qed.

Lemma links_run response self links :
  for_each (parse_link response) self links
  = run self (LinkStep response <$> links).
Proof. unfold run. by rewrite for_each_fmap. Qed.

Lemma run_below_back self steps :
  below_limit (run self steps).1 = true → below_limit self = true.
Proof.
  rewrite !below_limit_true, run_patch_limit.
  pose proof (run_length_mono self steps). lia.
Qed.

Lemma output_lengths out :
  length out
  = (length (item_links out)
     + length (DefaultSpiderViews.requests_of out))%nat.
Proof.
  induction out as [|[p|r] out IH]; [done|..].
  - change (item_links (Item p :: out)) with (patch_link p :: item_links out).
    change (DefaultSpiderViews.requests_of (Item p :: out))
      with (DefaultSpiderViews.requests_of out).
    simpl. lia.
  - change (item_links (Follow r :: out)) with (item_links out).
    change (DefaultSpiderViews.requests_of (Follow r :: out))
      with (r :: DefaultSpiderViews.requests_of out).
    simpl. lia.
Qed.

Lemma follow_request_same_settings s s' response l :
  same_settings s s' →
  DefaultSpiderViews.follow_request s' response l
  = DefaultSpiderViews.follow_request s response l.
Proof.
  intros Hs. unfold DefaultSpiderViews.follow_request.
  by rewrite (domain_priority_same_settings s s').
Qed.

Lemma below_requests_from response links start self :
  same_settings start self →
  below_limit (for_each (parse_link response) self links).1 = true →
  DefaultSpiderViews.requests_of (for_each (parse_link response) self links).2
  = DefaultSpiderViews.follow_request start response
      <$> filter (λ x, is_patch (urljoin (url response) x) = None) links.
Proof.
  revert self. induction links as [|l links IH]; intros self Hs Hb; [done|].
  rewrite for_each_cons in Hb |- *. simpl fst in Hb. simpl snd.
  assert (below_limit self = true) as Hb0.
  { rewrite links_run in Hb. apply run_below_back in Hb.
    apply (run_below_back self [LinkStep response l]).
    unfold run. by rewrite for_each_cons. }
  assert (same_settings start (parse_link response self l).1) as Hs1.
  { by apply parse_link_same_settings. }
  unfold DefaultSpiderViews.requests_of in *. rewrite omap_app.
  rewrite (IH _ Hs1 Hb).
  unfold parse_link.
  destruct (is_patch (urljoin (url response) l)) as [pl|] eqn:Hpl; rewrite Hb0.
  - rewrite filter_cons_False by (rewrite Hpl; done).
    by case_bool_decide.
  - rewrite filter_cons_True by done. simpl.
    rewrite <- (follow_request_same_settings start self) by done. done.
Qed.

(** While the limit is not reached by the end of a loop over links, every
    link of the loop that is no patch has its request, in order. *)
Lemma below_requests response links self :
  below_limit (for_each (parse_link response) self links).1 = true →
  DefaultSpiderViews.requests_of (for_each (parse_link response) self links).2
  = DefaultSpiderViews.follow_request self response
      <$> filter (λ x, is_patch (urljoin (url response) x) = None) links.
Proof. apply below_requests_from, same_settings_refl. Qed.

(** A loop over links that starts below the limit and ends at it reaches
    the limit at one of its links, with the patch that link yields; nothing
    is yielded after it. *)
Lemma limit_point response links self :
  below_limit self = true →
  below_limit (for_each (parse_link response) self links).1 = false →
  ∃ before l after pl,
    links = before ++ l :: after
    ∧ is_patch (urljoin (url response) l) = Some pl
    ∧ below_limit (for_each (parse_link response) self before).1 = true
    ∧ (for_each (parse_link response) self links).2
      = (for_each (parse_link response) self before).2
        ++ [Item {| patch_link := pl; reaching_path := url response |}].
Proof.
  revert self. induction links as [|l links IH]; intros self Hb0 Hend.
  - simpl in Hend. congruence.
  - rewrite for_each_cons in Hend |- *. simpl fst in Hend. simpl snd.
    destruct (below_limit (parse_link response self l).1) eqn:Hb1.
    + destruct (IH _ Hb1 Hend) as (before & l' & after & pl & -> & Hpl & Hb & Hout).
      exists (l :: before), l', after, pl.
      rewrite for_each_cons. simpl fst. simpl snd.
      split_and!; [done..|]. by rewrite Hout, app_assoc.
    + exists [], l, links.
      unfold parse_link in Hb1 |- *.
      destruct (is_patch (urljoin (url response) l)) as [pl|] eqn:Hpl;
        rewrite Hb0 in Hb1 |- *; [|simpl in Hb1; congruence].
      case_bool_decide; simpl in Hb1; [congruence|].
      exists pl. simpl fst. simpl snd.
      split_and!; [done..|].
      rewrite (for_each_idle _ _ links); [done|].
      intros x _. apply (step_limit_reached _ (LinkStep response x)).
      by apply below_limit_false.
Qed.

(** A fresh spider with [patch_limit = 2] on a page with two different
    patch links: the page splits at the link of the second patch; exactly
    two patches are yielded, the second as the last result of the page; the
    requests yielded are those of the links before the split that are no
    patch, in order. *)
Lemma two_patches_then_stop self response :
  patches self = [] → patch_limit self = 2 →
  (∃ l1 l2 pl1 pl2,
      l1 ∈ page_links self response ∧ l2 ∈ page_links self response
      ∧ is_patch (urljoin (url response) l1) = Some pl1
      ∧ is_patch (urljoin (url response) l2) = Some pl2
      ∧ pl1 ≠ pl2) →
  ∃ before l after p1 p2 front,
    page_links self response = before ++ l :: after
    ∧ is_patch (urljoin (url response) l) = Some p2
    ∧ item_links (parse self response).2 = [p1; p2]
    ∧ (parse self response).2
      = front ++ [Item {| patch_link := p2; reaching_path := url response |}]
    ∧ DefaultSpiderViews.requests_of (parse self response).2
      = DefaultSpiderViews.follow_request self response
          <$> filter (λ x, is_patch (urljoin (url response) x) = None) before
    ∧ length (parse self response).2
      = (2 + length (filter (λ x, is_patch (urljoin (url response) x) = None)
                            before))%nat.
Proof.
  intros Hnil Hlim (l1 & l2 & pl1 & pl2 & Hl1 & Hl2 & Hpl1 & Hpl2 & Hne).
  assert (within_limit (parse self response).1) as Hin.
  { rewrite parse_run. apply run_within_limit.
    unfold within_limit. rewrite Hnil, Hlim. simpl. lia. }
  unfold within_limit in Hin.
  assert (patch_limit (parse self response).1 = 2) as Hlim'.
  { rewrite parse_run, run_patch_limit. done. }
  rewrite Hlim' in Hin.
  assert (below_limit (parse self response).1 = false) as Hend.
  { destruct (below_limit (parse self response).1) eqn:Hb; [|done].
    assert (2 ≤ length (patches (parse self response).1))%nat as Hge.
    { apply (two_distinct pl1 pl2); [done| |]; rewrite parse_run in Hb |- *.
      - apply (run_collects _ self (LinkStep response l1)); [done| |done].
        unfold steps_of. simpl. by apply list_elem_of_fmap_2.
      - apply (run_collects _ self (LinkStep response l2)); [done| |done].
        unfold steps_of. simpl. by apply list_elem_of_fmap_2. }
    apply below_limit_true in Hb. rewrite Hlim' in Hb. lia. }
  assert (below_limit self = true) as Hb0.
  { apply below_limit_true. rewrite Hnil, Hlim. simpl. lia. }
  pose proof Hend as Hreached. apply below_limit_false in Hreached.
  unfold limit_reached in Hreached. rewrite Hlim' in Hreached.
  assert (patches (parse self response).1
          = item_links (parse self response).2) as Hlog.
  { rewrite parse_run, run_patches, Hnil. done. }
  rewrite Hlog in Hin, Hreached.
  rewrite parse_unfold in Hend.
  destruct (limit_point response _ self Hb0 Hend)
    as (before & l & after & p2 & Hsplit & Hp2 & Hb & Hout).
  rewrite <- parse_unfold in Hout.
  assert (∃ p1, item_links (for_each (parse_link response) self before).2 = [p1])
    as [p1 Hp1].
  { rewrite Hout, item_links_app, length_app in Hin, Hreached.
    simpl in Hin, Hreached.
    destruct (item_links (for_each (parse_link response) self before).2)
      as [|p1 [|p1' rest]]; simpl in *; [lia|by exists p1|lia]. }
  exists before, l, after, p1, p2,
    (for_each (parse_link response) self before).2.
  assert (DefaultSpiderViews.requests_of (parse self response).2
          = DefaultSpiderViews.follow_request self response
              <$> filter (λ x, is_patch (urljoin (url response) x) = None)
                         before) as Hreq.
  { rewrite Hout. unfold DefaultSpiderViews.requests_of. rewrite omap_app.
    simpl. rewrite app_nil_r. by apply below_requests. }
  split_and!; [done|done| |done|done|].
  - by rewrite Hout, item_links_app, Hp1.
  - rewrite output_lengths, Hreq, length_fmap.
    rewrite Hout, item_links_app, Hp1. simpl. done.
Qed.

(** C1, as amended: from a state with [len(self.patches) <= patch_limit]
    (a fresh spider with a non-negative limit is one), the patch count
    stays within [patch_limit] over any sequence of loop iterations and
    over any sequence of pages; once the limit is reached, no iteration
    of [parse] or [parse_debian] yields a patch or a request, for any
    further link or page; and a fresh spider with [patch_limit = 2] on a
    page with two different patch links yields exactly two patches, the
    second as the last result of the page, and besides them one request for
    each link that is no patch and comes before the link of the second
    patch, so two results only when there is no such link. *)
Theorem patch_limit_respected self steps more pages response :
  within_limit self →
  within_limit (run self steps).1
  ∧ within_limit (crawl self pages).1
  ∧ (limit_reached (run self steps).1 →
       run (run self steps).1 more = ((run self steps).1, [])
       ∧ crawl (run self steps).1 pages = ((run self steps).1, []))
  ∧ (patches self = [] → patch_limit self = 2 →
     (∃ l1 l2 pl1 pl2,
         l1 ∈ page_links self response ∧ l2 ∈ page_links self response
         ∧ is_patch (urljoin (url response) l1) = Some pl1
         ∧ is_patch (urljoin (url response) l2) = Some pl2
         ∧ pl1 ≠ pl2) →
     ∃ before l after p1 p2 front,
       page_links self response = before ++ l :: after
       ∧ is_patch (urljoin (url response) l) = Some p2
       ∧ item_links (parse self response).2 = [p1; p2]
       ∧ (parse self response).2
         = front ++ [Item {| patch_link := p2; reaching_path := url response |}]
       ∧ DefaultSpiderViews.requests_of (parse self response).2
         = DefaultSpiderViews.follow_request self response
             <$> filter (λ x, is_patch (urljoin (url response) x) = None) before
       ∧ length (parse self response).2
         = (2 + length (filter (λ x, is_patch (urljoin (url response) x) = None)
                               before))%nat).
Proof.
  intros Hin. split_and!.
  - by apply run_within_limit.
  - rewrite crawl_run. by apply run_within_limit.
  - intros Hr. split; [by apply run_limit_reached|].
    rewrite crawl_run. by apply run_limit_reached.
  - apply two_patches_then_stop.
Qed.

(** C3, as amended: a link for which [is_patch] returns a patch link, met
    below the limit with that patch link (not the link itself) not yet in
    [self.patches], makes [parse] yield exactly one [Patch] with that patch
    link and the page's URL as [reaching_path]; the patch link is appended
    to [self.patches], whose length grows by one. *)
Theorem new_patch_link_emitted response self extracted pl :
  is_patch (urljoin (url response) extracted) = Some pl →
  Z.of_nat (length (patches self)) < patch_limit self →
  pl ∉ patches self →
  parse_link response self extracted =
    (add_patch self pl,
     [Item {| patch_link := pl; reaching_path := url response |}])
  ∧ patches (add_patch self pl) = patches self ++ [pl]
  ∧ pl ∈ patches (add_patch self pl)
  ∧ length (patches (add_patch self pl)) = Datatypes.S (length (patches self))
  ∧ ∀ start before after,
      page_links start response = before ++ extracted :: after →
      (for_each (parse_link response) start before).1 = self →
      parse start response =
        ((for_each (parse_link response) (add_patch self pl) after).1,
         (for_each (parse_link response) start before).2
         ++ Item {| patch_link := pl; reaching_path := url response |}
         :: (for_each (parse_link response) (add_patch self pl) after).2).
Proof.
  intros Hpl Hb%below_limit_true Hnew.
  assert (parse_link response self extracted =
            (add_patch self pl,
             [Item {| patch_link := pl; reaching_path := url response |}]))
    as Hstep.
  { unfold parse_link. rewrite Hpl, Hb. by rewrite bool_decide_eq_false_2. }
  split_and!; [done|done| |apply length_add_patch|].
  - simpl. apply elem_of_app. right. by apply list_elem_of_singleton.
  - intros start before after Hlinks <-.
    rewrite parse_unfold, Hlinks, for_each_app, for_each_cons, Hstep.
    done.
Qed.

(** C9: below the limit, a link that classifies as a patch whose patch
    link is already in [self.patches] makes [parse] yield nothing, neither
    a [Patch] nor a [Request], and leaves the spider as it was. *)
Theorem known_patch_link_skipped response self extracted pl :
  is_patch (urljoin (url response) extracted) = Some pl →
  pl ∈ patches self →
  Z.of_nat (length (patches self)) < patch_limit self →
  parse_link response self extracted = (self, [])
  ∧ ∀ start before after,
      page_links start response = before ++ extracted :: after →
      (for_each (parse_link response) start before).1 = self →
      parse start response =
        for_each (parse_link response) start (before ++ after).
Proof.
  intros Hpl Hold Hb%below_limit_true.
  assert (parse_link response self extracted = (self, [])) as Hstep.
  { unfold parse_link. rewrite Hpl, Hb. by rewrite bool_decide_eq_true_2. }
  split; [done|].
  intros start before after Hlinks <-.
  by rewrite parse_unfold, Hlinks, !for_each_app, for_each_cons, Hstep.
Qed.




End WithCollaborators.

Lemma start_request_stored `{!RequestConstructor} u r :
  start_request u = Some r → stored_url u = Some (request_url r).
Proof.
  unfold start_request.
  destruct (String.prefix _ u), (stored_url u) as [stored|]; simpl;
    by intros [= <-].
Qed.

(** [start_requests] yields one request per entrypoint URL, in order, when
    [Request] accepts each of them. *)
Lemma start_requests_one_per_url `{!RequestConstructor} self :
  (∀ u, u ∈ start_urls self → is_Some (stored_url u)) →
  (start_requests self).2 = false
  ∧ length (start_requests self).1 = length (start_urls self)
  ∧ Forall2 (λ u r, stored_url u = Some (request_url r))
            (start_urls self) (start_requests self).1.
Proof.
  unfold start_requests.
  induction (start_urls self) as [|u us IH]; intros Hall.
  - by repeat split.
  - destruct IH as (Hno & Hlen & Hurls).
    { intros u' Hu'. by apply Hall, list_elem_of_further. }
    simpl. destruct (start_request u) as [r|] eqn:Hr.
    + apply start_request_stored in Hr.
      destruct (start_requests_from us) as [rs raised]. simpl in *.
      split_and!; [done|by rewrite Hlen|by constructor].
    + destruct (Hall u) as [stored Hstored]; [apply list_elem_of_here|].
      unfold start_request in Hr. rewrite Hstored in Hr.
      by destruct (String.prefix _ u).
Qed.

(** *** The definitions at work on the sample site *)

#[local] Existing Instance Sample.collaborators.

Lemma patch_limit_respected_witness :
  within_limit (Sample.spider Sample.cve 2 [])
  ∧ within_limit
      (crawl (Sample.spider Sample.cve 2 [])
             [(parse_callback, Sample.mixed_page);
              (parse_debian_callback, Sample.debian_page)]).1
  ∧ ∃ before l after p1 p2 front,
      page_links (Sample.spider Sample.cve 2 []) Sample.mixed_page
      = before ++ l :: after
      ∧ is_patch (urljoin (Http.url Sample.mixed_page) l) = Some p2
      ∧ item_links (parse (Sample.spider Sample.cve 2 []) Sample.mixed_page).2
        = [p1; p2]
      ∧ (parse (Sample.spider Sample.cve 2 []) Sample.mixed_page).2
        = front ++ [Item {| patch_link := p2;
                            reaching_path := Http.url Sample.mixed_page |}]
      ∧ DefaultSpiderViews.requests_of
          (parse (Sample.spider Sample.cve 2 []) Sample.mixed_page).2
        = DefaultSpiderViews.follow_request
            (Sample.spider Sample.cve 2 []) Sample.mixed_page
            <$> filter (λ x, is_patch (urljoin (Http.url Sample.mixed_page) x)
                             = None) before
      ∧ length (parse (Sample.spider Sample.cve 2 []) Sample.mixed_page).2
        = (2 + length (filter (λ x, is_patch
                                      (urljoin (Http.url Sample.mixed_page) x)
                                    = None) before))%nat.
Proof.
  assert (within_limit (Sample.spider Sample.cve 2 [])) as Hin.
  { unfold within_limit. simpl. lia. }
  destruct (patch_limit_respected
              (Sample.spider Sample.cve 2 []) [] []
              [(parse_callback, Sample.mixed_page);
               (parse_debian_callback, Sample.debian_page)]
              Sample.mixed_page Hin) as (_ & Hcrawl & _ & Htwo).
  split_and!; [done..|].
  apply Htwo; [done..|].
  exists "https://github.com/uclouvain/openjpeg/commit/162f.patch",
         "https://github.com/uclouvain/openjpeg/commit/a1b2.patch",
         "https://github.com/uclouvain/openjpeg/commit/162f.patch",
         "https://github.com/uclouvain/openjpeg/commit/a1b2.patch".
  split_and!.
  - vm_compute. apply list_elem_of_further, list_elem_of_here.
  - vm_compute. do 2 apply list_elem_of_further. apply list_elem_of_here.
  - vm_compute. reflexivity.
  - vm_compute. reflexivity.
  - discriminate.
Defined.

(** With [patch_limit = 2] the sample page offering two patch links after
    an ordinary link yields three results: the request for the ordinary
    link comes before the limit is reached. A fresh spider with a negative
    limit is above its limit from the start. *)
Lemma small_patch_limit_three_results :
  patch_limit (Sample.spider Sample.cve 2 []) = 2
  ∧ ¬ within_limit (Sample.spider Sample.cve (-1) [])
  ∧ item_links (parse (Sample.spider Sample.cve 2 []) Sample.mixed_page).2
    = ["https://github.com/uclouvain/openjpeg/commit/162f.patch";
       "https://github.com/uclouvain/openjpeg/commit/a1b2.patch"]
  ∧ length (parse (Sample.spider Sample.cve 2 []) Sample.mixed_page).2 = 3%nat
  ∧ length (parse (Sample.spider Sample.cve 2 []) Sample.mixed_page).2 ≠ 2%nat.
Proof.
  split_and!; [vm_compute; reflexivity| |vm_compute; reflexivity..
              |vm_compute; discriminate].
  unfold within_limit. simpl. lia.
Qed.

(** C2: [parse] collects a patch link of the page, and [parse_debian]
    then yields the patch the Debian parser reports although its link is
    already in [self.patches]: the same [patch_link] is yielded twice in
    one crawl. *)
Example debian_callback_repeats_patch_link :
  item_links
    (crawl (Sample.spider Sample.cve 100 [])
           [(parse_callback, Sample.mixed_page);
            (parse_debian_callback, Sample.debian_page)]).2
  = ["https://github.com/uclouvain/openjpeg/commit/162f.patch";
     "https://github.com/uclouvain/openjpeg/commit/a1b2.patch";
     "https://github.com/uclouvain/openjpeg/commit/162f.patch"]
  ∧ ¬ NoDup
      (item_links
         (crawl (Sample.spider Sample.cve 100 [])
                [(parse_callback, Sample.mixed_page);
                 (parse_debian_callback, Sample.debian_page)]).2).
Proof.
  assert (item_links
            (crawl (Sample.spider Sample.cve 100 [])
                   [(parse_callback, Sample.mixed_page);
                    (parse_debian_callback, Sample.debian_page)]).2
          = ["https://github.com/uclouvain/openjpeg/commit/162f.patch";
             "https://github.com/uclouvain/openjpeg/commit/a1b2.patch";
             "https://github.com/uclouvain/openjpeg/commit/162f.patch"]) as Heq.
  { vm_compute. reflexivity. }
  split; [done|]. rewrite Heq. intros [Hnotin _]%NoDup_cons.
  apply Hnotin. apply list_elem_of_further, list_elem_of_here.
Qed.

Lemma new_patch_link_emitted_witness :
  is_patch (urljoin (Http.url Sample.patches_page)
                    "https://github.com/a/b/commit/1.patch")
    = Some "https://github.com/a/b/commit/1.patch"
  ∧ Z.of_nat (length (patches (Sample.spider Sample.cve 2 []))) < 2
  ∧ ("https://github.com/a/b/commit/1.patch"
       ∉ patches (Sample.spider Sample.cve 2 []))
  ∧ parse_link Sample.patches_page (Sample.spider Sample.cve 2 [])
               "https://github.com/a/b/commit/1.patch"
    = (add_patch (Sample.spider Sample.cve 2 [])
                 "https://github.com/a/b/commit/1.patch",
       [Item {| patch_link := "https://github.com/a/b/commit/1.patch";
                reaching_path := "https://tracker.example.org/CVE-2019-14452" |}]).
Proof.
  assert (is_patch (urljoin (Http.url Sample.patches_page)
                            "https://github.com/a/b/commit/1.patch")
          = Some "https://github.com/a/b/commit/1.patch") as Hpl.
  { vm_compute. reflexivity. }
  assert (Z.of_nat (length (patches (Sample.spider Sample.cve 2 []))) < 2) as Hb.
  { simpl. lia. }
  split_and!; [done|done|apply not_elem_of_nil|].
  apply (new_patch_link_emitted Sample.patches_page
           (Sample.spider Sample.cve 2 []) _ _ Hpl Hb), not_elem_of_nil.
Defined.

Lemma known_patch_link_skipped_witness :
  is_patch (urljoin (Http.url Sample.patches_page)
                    "https://github.com/a/b/commit/1.patch")
    = Some "https://github.com/a/b/commit/1.patch"
  ∧ ("https://github.com/a/b/commit/1.patch"
       ∈ patches (add_patch (Sample.spider Sample.cve 2 [])
                            "https://github.com/a/b/commit/1.patch"))
  ∧ Z.of_nat (length (patches (add_patch (Sample.spider Sample.cve 2 [])
                                 "https://github.com/a/b/commit/1.patch"))) < 2
  ∧ parse_link Sample.patches_page
               (add_patch (Sample.spider Sample.cve 2 [])
                          "https://github.com/a/b/commit/1.patch")
               "https://github.com/a/b/commit/1.patch"
    = (add_patch (Sample.spider Sample.cve 2 [])
                 "https://github.com/a/b/commit/1.patch", []).
Proof.
  assert (is_patch (urljoin (Http.url Sample.patches_page)
                            "https://github.com/a/b/commit/1.patch")
          = Some "https://github.com/a/b/commit/1.patch") as Hpl.
  { vm_compute. reflexivity. }
  assert ("https://github.com/a/b/commit/1.patch"
            ∈ patches (add_patch (Sample.spider Sample.cve 2 [])
                                 "https://github.com/a/b/commit/1.patch")) as Hold.
  { simpl. apply list_elem_of_here. }
  assert (Z.of_nat (length (patches (add_patch (Sample.spider Sample.cve 2 [])
                               "https://github.com/a/b/commit/1.patch"))) < 2) as Hb.
  { simpl. lia. }
  split_and!; [done..|].
  apply (known_patch_link_skipped Sample.patches_page _ _ _ Hpl Hold Hb).
Defined.




(** With a classifier that gives a commit page the link of its patch: a
    link that classifies as a patch, met below the limit and not itself in
    [self.patches], yields nothing when its patch link is there already; and
    when it does yield a patch, the [patch_link] yielded and appended is the
    patch link of the classifier, not the link, which is still not in
    [self.patches] afterwards. *)
Lemma rewritten_patch_link_is_not_the_link :
  @is_patch SampleMore.github_collaborators "https://github.com/a/b/commit/1"
  = Some "https://github.com/a/b/commit/1.patch"
  ∧ Z.of_nat (length (patches (add_patch (Sample.spider Sample.cve 5 [])
                                 "https://github.com/a/b/commit/1.patch"))) < 5
  ∧ ("https://github.com/a/b/commit/1"
       ∉ patches (add_patch (Sample.spider Sample.cve 5 [])
                            "https://github.com/a/b/commit/1.patch"))
  ∧ @parse_link SampleMore.github_collaborators Sample.patches_page
      (add_patch (Sample.spider Sample.cve 5 [])
                 "https://github.com/a/b/commit/1.patch")
      "https://github.com/a/b/commit/1"
    = (add_patch (Sample.spider Sample.cve 5 [])
                 "https://github.com/a/b/commit/1.patch", [])
  ∧ @parse_link SampleMore.github_collaborators Sample.patches_page
      (Sample.spider Sample.cve 5 []) "https://github.com/a/b/commit/1"
    = (add_patch (Sample.spider Sample.cve 5 [])
                 "https://github.com/a/b/commit/1.patch",
       [Item {| patch_link := "https://github.com/a/b/commit/1.patch";
                reaching_path := "https://tracker.example.org/CVE-2019-14452" |}]).
Proof.
  split_and!; [vm_compute; reflexivity|simpl; lia| |vm_compute; reflexivity..].
  simpl. intros Hin%list_elem_of_singleton. discriminate.
Qed.

(** C4: for a generic advisory whose descriptor has no entrypoint URL,
    [start_requests] yields no request at all, none for [base_url]
    either; for the CVE of the sample it yields one request per
    entrypoint URL. *)
Example start_requests_generic_none :
  Vulnerability.kind Sample.dsa = Vulnerability.Generic
  ∧ (∀ constructor : RequestConstructor,
       start_requests (Sample.spider Sample.dsa 100 []) = ([], false))
  ∧ @start_requests SampleMore.request_constructor
                    (Sample.spider Sample.dsa 100 []) = ([], false)
  ∧ request_url
      <$> (@start_requests SampleMore.request_constructor
                           (Sample.spider Sample.cve 100 [])).1
    = Vulnerability.entrypoint_URLs Sample.cve.
Proof. split_and!; [done|done|vm_compute; reflexivity..]. Qed.

End DefaultSpiderFacts.

(** ** base_spider.py *)

Module BaseSpiderFacts.
Import Http BaseSpider.

Section WithCollaborators.
Context `{!Collaborators}.
Variable _callback_by_url : Response → option Callable.

Lemma _callback_by_content_None response :
  headers response !! "Content-Type" = None →
  _callback_by_content response = None.
Proof. intros Hno. unfold _callback_by_content. by rewrite Hno. Qed.

Lemma _callback_by_content_Some response content_type :
  headers response !! "Content-Type" = Some content_type →
  _callback_by_content response =
    Some (if String.prefix "application/json" content_type
          then parse_json else parse_default).
Proof.
  intros Hct. unfold _callback_by_content. rewrite Hct.
  by destruct (String.prefix _ content_type).
Qed.

(** C10: a response without a [Content-Type] header, for which
    [_callback_by_url] selects no callable, has no parse callable, and
    [parse] yields nothing for it. *)
Theorem parse_without_callback response :
  headers response !! "Content-Type" = None →
  _callback_by_url response = None →
  _callback _callback_by_url response = None
  ∧ parse _callback_by_url response = Yielded [].
Proof.
  intros Hno Hurl.
  assert (_callback _callback_by_url response = None) as Hcb.
  { unfold _callback. rewrite Hurl. by apply _callback_by_content_None. }
  split; [done|]. unfold parse. by rewrite Hcb.
Qed.

End WithCollaborators.

#[local] Existing Instance Sample.scraper.

Lemma parse_without_callback_witness :
  headers Sample.bare_page !! "Content-Type" = None
  ∧ base_callback_by_url Sample.bare_page = None
  ∧ parse base_callback_by_url Sample.bare_page = Yielded [].
Proof.
  assert (headers Sample.bare_page !! "Content-Type" = None) as Hno.
  { apply lookup_empty. }
  split_and!; [done..|].
  apply (parse_without_callback base_callback_by_url Sample.bare_page Hno eq_refl).
Defined.

(** With a [Content-Type] header the same spider scrapes the page. *)
Example parse_html_page :
  parse base_callback_by_url Sample.mixed_page
  = Yielded ["https://bugzilla.redhat.com/show_bug.cgi?id=1317822";
             "https://github.com/uclouvain/openjpeg/commit/162f.patch";
             "https://github.com/uclouvain/openjpeg/commit/a1b2.patch";
             "https://twitter.com/share";
             "https://github.com/uclouvain/openjpeg/issues/771"].
Proof.
  unfold parse, _callback. simpl.
  rewrite (_callback_by_content_Some _ "text/html") by done.
  vm_compute. reflexivity.
Qed.

End BaseSpiderFacts.

(** ** patchfinder.py *)

Module PatchfinderFacts.
Import Patchfinder.

Section WithContext.
Variable create_vuln : string → option Vulnerability.Vuln.

Lemma spawn_crawler_unrecognized args w :
  create_vuln (vuln_id args) = None →
  spawn_crawler create_vuln args w = (false, w).
Proof. intros Hno. unfold spawn_crawler. by rewrite Hno. Qed.

Lemma spawn_crawler_recognized args w vuln :
  create_vuln (vuln_id args) = Some vuln →
  ∃ settings spider,
    spawn_crawler create_vuln args w =
      (true, {| stdout := stdout w;
                crawls := crawls w ++ [(settings, spider)] |})
    ∧ DEPTH_LIMIT settings = depth args
    ∧ LOG_ENABLED settings = log args
    ∧ DefaultSpider.vuln_id spider = Vulnerability.vuln_id vuln
    ∧ DefaultSpider.start_urls spider = Vulnerability.entrypoint_URLs vuln
    ∧ DefaultSpider.patches spider = []
    ∧ DefaultSpider.patch_limit spider = patch_limit args
    ∧ DefaultSpider.important_domains spider = imp_domains args
    ∧ DefaultSpider.deny_domains spider = deny_domains args.
Proof.
  intros Hyes. unfold spawn_crawler. rewrite Hyes.
  eexists _, _. split; [reflexivity|]. by repeat split.
Qed.

(** C8, as amended: when [create_vuln] does not recognise the
    identifier, [spawn_crawler] returns [False] without starting a
    crawl, and the program prints that it cannot recognise the
    vulnerability; when it does, one crawl is started with the options
    given and the program prints that crawling completed. In both cases
    the program runs to its end and exits with status 0. *)
Theorem main_outcome args w :
  exit_status (main create_vuln args w) = 0
  ∧ (create_vuln (vuln_id args) = None →
       spawn_crawler create_vuln args w = (false, w)
       ∧ crawls (world_after (main create_vuln args w)) = crawls w
       ∧ stdout (world_after (main create_vuln args w))
         = stdout w ++ ["Can't recognize that vulnerability."])
  ∧ (∀ vuln, create_vuln (vuln_id args) = Some vuln →
       (spawn_crawler create_vuln args w).1 = true
       ∧ stdout (world_after (main create_vuln args w))
         = stdout w ++ ["Crawling completed."]
       ∧ ∃ settings spider,
           crawls (world_after (main create_vuln args w))
           = crawls w ++ [(settings, spider)]
           ∧ DEPTH_LIMIT settings = depth args
           ∧ DefaultSpider.vuln_id spider = Vulnerability.vuln_id vuln
           ∧ DefaultSpider.start_urls spider
             = Vulnerability.entrypoint_URLs vuln
           ∧ DefaultSpider.patch_limit spider = patch_limit args).
Proof.
  split_and!.
  - unfold main. destruct (spawn_crawler _ _ _) as [[] w1]; done.
  - intros Hno. unfold main.
    rewrite (spawn_crawler_unrecognized _ _ Hno). done.
  - intros vuln Hyes. unfold main.
    destruct (spawn_crawler_recognized args w vuln Hyes)
      as (settings & spider & -> & Hd & _ & Hv & Hs & _ & Hl & _).
    split_and!; [done..|]. by exists settings, spider.
Qed.

End WithContext.

Lemma main_outcome_witness :
  Sample.create_vuln (vuln_id (Sample.args "RHSA-2019:0001")) = None
  ∧ crawls (world_after (main Sample.create_vuln
                              (Sample.args "RHSA-2019:0001") Sample.quiet)) = []
  ∧ stdout (world_after (main Sample.create_vuln
                              (Sample.args "RHSA-2019:0001") Sample.quiet))
    = ["Can't recognize that vulnerability."].
Proof.
  assert (Sample.create_vuln (vuln_id (Sample.args "RHSA-2019:0001")) = None)
    as Hno by reflexivity.
  destruct (main_outcome Sample.create_vuln (Sample.args "RHSA-2019:0001")
              Sample.quiet) as (_ & Hfail & _).
  destruct (Hfail Hno) as (_ & Hcrawls & Hout).
  split_and!; [done|exact Hcrawls|exact Hout].
Defined.

(** For an identifier that is not recognised the exit status is that of
    success. *)
Lemma unrecognized_exit_status_success :
  Sample.create_vuln "RHSA-2019:0001" = None
  ∧ exit_status (main Sample.create_vuln (Sample.args "RHSA-2019:0001")
                      Sample.quiet)
    = exit_status (main Sample.create_vuln (Sample.args "CVE-2016-4796")
                        Sample.quiet)
  ∧ ¬ communicates_failure
        (exit_status (main Sample.create_vuln (Sample.args "RHSA-2019:0001")
                           Sample.quiet)).
Proof.
  split_and!; [reflexivity..|].
  unfold communicates_failure. intros Hne. by apply Hne.
Qed.

End PatchfinderFacts.

(** ** Alias resolution *)

Module AliasResolverFacts.
Import Http AliasResolver.

Section WithRegistry.
Context `{!Registry}.

Lemma record_alias_settles st id : settled (record_alias st id) id.
Proof.
  unfold settled, record_alias.
  destruct (resolved_aliases st !! id) as [d|] eqn:Hres.
  - left. by rewrite Hres.
  - destruct (resolve id) as [d|] eqn:Hreg; [|by right].
    left. simpl. rewrite lookup_insert_eq. by eexists.
Qed.

Lemma record_alias_keeps st id id' :
  settled st id' → settled (record_alias st id) id'.
Proof.
  intros [[d Hd]|Hno]; [|by right]. left. unfold record_alias.
  destruct (resolved_aliases st !! id) eqn:Hres; [by eexists|].
  destruct (resolve id); [|by eexists]. simpl.
  rewrite lookup_insert_ne; [by eexists|]. congruence.
Qed.

Lemma record_alias_settled st id : settled st id → record_alias st id = st.
Proof.
  unfold record_alias. intros [[d Hd]|Hno]; [by rewrite Hd|].
  rewrite Hno. by destruct (resolved_aliases st !! id).
Qed.

Lemma record_aliases_keep ids st id :
  settled st id → settled (foldl record_alias st ids) id.
Proof.
  revert st. induction ids as [|i ids IH]; intros st Hs; [done|].
  simpl. by apply IH, record_alias_keeps.
Qed.

Lemma record_aliases_settle ids st id :
  id ∈ ids → settled (foldl record_alias st ids) id.
Proof.
  revert st. induction ids as [|i ids IH]; intros st Hin.
  - by apply elem_of_nil in Hin.
  - simpl. apply elem_of_cons in Hin as [->|Hin]; [|by apply IH].
    apply record_aliases_keep, record_alias_settles.
Qed.

Lemma record_aliases_settled ids st :
  (∀ id, id ∈ ids → settled st id) → foldl record_alias st ids = st.
Proof.
  induction ids as [|i ids IH]; intros Hall; [done|].
  simpl. rewrite record_alias_settled by apply Hall, list_elem_of_here.
  apply IH. intros id Hid. by apply Hall, list_elem_of_further.
Qed.

(** Requesting generic advisories leaves [resolved_aliases] alone and
    only adds to [pending_generic]. *)
Lemma request_generic_resolved st id :
  resolved_aliases (request_generic st id).1 = resolved_aliases st.
Proof. unfold request_generic. by case_bool_decide. Qed.

Lemma request_generic_pending st id id' :
  id' ∈ pending_generic (request_generic st id).1 ↔
  id' = id ∨ id' ∈ pending_generic st.
Proof.
  unfold request_generic. case_bool_decide as Hin; simpl.
  - split; [by right|]. by intros [->|?].
  - by rewrite elem_of_union, elem_of_singleton.
Qed.

Lemma request_generics_resolved ids st :
  resolved_aliases (for_each request_generic st ids).1 = resolved_aliases st.
Proof.
  revert st. induction ids as [|i ids IH]; intros st; [done|].
  rewrite for_each_cons. simpl. by rewrite IH, request_generic_resolved.
Qed.

Lemma request_generics_pending ids st id :
  id ∈ pending_generic (for_each request_generic st ids).1 ↔
  id ∈ ids ∨ id ∈ pending_generic st.
Proof.
  revert st. induction ids as [|i ids IH]; intros st.
  - simpl. rewrite elem_of_nil. tauto.
  - rewrite for_each_cons. simpl.
    rewrite IH, request_generic_pending, elem_of_cons. tauto.
Qed.

Lemma request_generic_known st id :
  id ∈ pending_generic st → request_generic st id = (st, []).
Proof. intros Hin. unfold request_generic. by rewrite bool_decide_eq_true_2. Qed.

Lemma settled_same_resolved st st' id :
  resolved_aliases st' = resolved_aliases st → settled st id → settled st' id.
Proof. unfold settled. by intros ->. Qed.

(** C7: a second [determine_aliases] on the same descriptor and page
    changes neither [resolved_aliases] nor [pending_generic] and emits no
    request. *)
Theorem determine_aliases_idempotent st descriptor page :
  determine_aliases (determine_aliases st descriptor page).1 descriptor page
  = ((determine_aliases st descriptor page).1, []).
Proof.
  unfold determine_aliases.
  set (aliases := alias_ids descriptor page).
  set (generics := generic_ids descriptor page).
  set (st1 := foldl record_alias st aliases).
  set (st2 := (for_each request_generic st1 generics).1).
  assert (foldl record_alias st2 aliases = st2) as ->.
  { apply record_aliases_settled. intros id Hid.
    apply (settled_same_resolved st1); [apply request_generics_resolved|].
    by apply record_aliases_settle. }
  apply for_each_idle. intros id Hid.
  apply request_generic_known, request_generics_pending. by left.
Qed.

End WithRegistry.

#[local] Existing Instance Sample.registry.

(** The first call on the sample page records the alias once and requests
    the generic advisory; the second call emits nothing. *)
Example determine_aliases_twice :
  (determine_aliases Sample.no_aliases Sample.dsa Sample.glsa_page).2
  = [ {| fetch_url := "https://gitweb.gentoo.org/data/glsa.git/plain/GLSA-200601-06" |} ]
  ∧ size (resolved_aliases
            (determine_aliases Sample.no_aliases Sample.dsa Sample.glsa_page).1)
    = 1%nat
  ∧ (determine_aliases
       (determine_aliases Sample.no_aliases Sample.dsa Sample.glsa_page).1
       Sample.dsa Sample.glsa_page).2 = [].
Proof.
  split_and!; vm_compute; reflexivity.
Qed.

End AliasResolverFacts.

(** * More of the spiders and of the entry point *)

Section GeneratorMoreFacts.

Context {S A B : Type}.
Implicit Types (body : S → A → S * list B) (self : S) (xs : list A).

(** A loop whose iterations leave the state alone yields what each of them
    yields in that state. *)
Lemma for_each_stationary body self xs :
  (∀ x, x ∈ xs → (body self x).1 = self) →
  for_each body self xs = (self, xs ≫= λ x, (body self x).2).
Proof.
  induction xs as [|x xs IH]; intros Hfix; [done|].
  rewrite for_each_cons, (Hfix x) by apply list_elem_of_here.
  rewrite IH; [done|]. intros y Hy. by apply Hfix, list_elem_of_further.
Qed.

Lemma for_each_length body self xs :
  (∀ s x, (length (body s x).2 ≤ 1)%nat) →
  (length (for_each body self xs).2 ≤ length xs)%nat.
Proof.
  intros Hone. revert self. induction xs as [|x xs IH]; intros self; [done|].
  rewrite for_each_cons. simpl. rewrite length_app.
  specialize (Hone self x). specialize (IH (body self x).1). lia.
Qed.

End GeneratorMoreFacts.

(** ** default_spider.py *)

Module DefaultSpiderMore.
Import Http Items DefaultSpider DefaultSpiderViews DefaultSpiderFacts.

Lemma remaining_below self link :
  below_limit self = true →
  remaining self = Datatypes.S (remaining (add_patch self link)).
Proof.
  intros Hb%below_limit_true. unfold remaining.
  rewrite length_add_patch. simpl patch_limit. lia.
Qed.

Lemma remaining_reached self : below_limit self = false → remaining self = 0%nat.
Proof.
  intros Hr%below_limit_false. unfold remaining, limit_reached in *. lia.
Qed.

Lemma start_request_starts `{!RequestConstructor} u r :
  start_request u = Some r → starts u r.
Proof.
  unfold start_request, starts.
  destruct (String.prefix _ u) eqn:Hp, (stored_url u) as [stored|]; simpl;
    intros [= <-]; simpl; by repeat split.
Qed.

Lemma start_request_raises `{!RequestConstructor} u :
  start_request u = None ↔ stored_url u = None.
Proof.
  unfold start_request.
  by destruct (String.prefix _ u), (stored_url u) as [stored|].
Qed.

(** [start_requests] goes through [start_urls] in order and yields one
    request per URL until [Request] rejects one: each request holds the URL
    the constructor stored for its start URL, has priority 0, and goes to
    [parse_debian] exactly when the start URL starts with the address of the
    Debian tracker, to [parse] otherwise. The generator raises exactly when
    [Request] rejects a start URL, at the first such URL; otherwise every
    start URL has its request. *)
Theorem start_requests_dispatch `{!RequestConstructor} self :
  ((start_requests self).2 = true ↔
   ∃ u, u ∈ start_urls self ∧ stored_url u = None)
  ∧ ∃ k,
      Forall2 starts (take k (start_urls self)) (start_requests self).1
      ∧ if (start_requests self).2
        then ∃ u, start_urls self !! k = Some u ∧ stored_url u = None
        else k = length (start_urls self).
Proof.
  unfold start_requests.
  induction (start_urls self) as [|u us [IHr (k & IHk & IHend)]].
  - simpl. split.
    + split; [done|]. by intros (u & ?%elem_of_nil & _).
    + exists 0%nat. by split; [constructor|].
  - simpl. destruct (start_request u) as [r|] eqn:Hr.
    + pose proof (start_request_starts u r Hr) as Hstarts.
      destruct (start_requests_from us) as [rs raised]. simpl in *.
      split.
      * rewrite IHr. split.
        -- intros (u' & Hu' & Hno). exists u'.
           split; [by apply list_elem_of_further|done].
        -- intros (u' & [->|Hu']%elem_of_cons & Hno).
           ++ destruct Hstarts as [Hstored _]. congruence.
           ++ by exists u'.
      * exists (Datatypes.S k). simpl. split; [by constructor|].
        destruct raised; [done|]. by rewrite IHend.
    + apply start_request_raises in Hr. simpl. split.
      * split; [intros _|done]. exists u. split; [apply list_elem_of_here|done].
      * exists 0%nat. simpl. split; [constructor|]. by exists u.
Qed.

Section WithCollaborators.
Context `{!Collaborators}.

(** Over a crawl [self.patches] is only appended to, and what is appended
    is the [patch_link] of every patch yielded, in the order of the
    yields. *)
Theorem crawl_patches_log self pages :
  patches (crawl self pages).1
  = patches self ++ item_links (crawl self pages).2.
Proof. rewrite crawl_run. apply run_patches. Qed.

(** No callback changes the name, the vulnerability, the start URLs, the
    denied and the important domains, or the patch limit of the spider. *)
Theorem crawl_keeps_settings self pages :
  name (crawl self pages).1 = name self
  ∧ vuln_id (crawl self pages).1 = vuln_id self
  ∧ start_urls (crawl self pages).1 = start_urls self
  ∧ deny_domains (crawl self pages).1 = deny_domains self
  ∧ important_domains (crawl self pages).1 = important_domains self
  ∧ patch_limit (crawl self pages).1 = patch_limit self.
Proof. rewrite crawl_run. apply run_same_settings. Qed.

Lemma crawl_yield_room self pages :
  within_limit self →
  Z.of_nat (length (item_links (crawl self pages).2))
  ≤ patch_limit self - Z.of_nat (length (patches self)).
Proof.
  intros Hin. rewrite crawl_run.
  pose proof (run_within_limit self (pages ≫= steps_of self) Hin) as Hafter.
  unfold within_limit in Hafter.
  rewrite run_patches, run_patch_limit, length_app in Hafter. lia.
Qed.

Lemma crawl_at_limit self pages :
  limit_reached self → crawl self pages = (self, []).
Proof. intros Hr. rewrite crawl_run. by apply run_limit_reached. Qed.

(** A crawl that starts within the limit yields at most as many patches as
    the limit leaves room for. *)
Theorem crawl_patches_bound self pages :
  within_limit self →
  Z.of_nat (length (item_links (crawl self pages).2))
  ≤ patch_limit self - Z.of_nat (length (patches self)).
Proof. apply crawl_yield_room. Qed.

Lemma parse_only_link_steps self pages :
  parse_only pages →
  Forall (λ s, ∃ response extracted, s = LinkStep response extracted)
         (pages ≫= steps_of self).
Proof.
  intros Hall. apply Forall_forall. intros s Hs.
  apply list_elem_of_bind in Hs as (page & Hs & Hpage).
  eapply Forall_forall in Hall; [|done]. simpl in Hall.
  unfold steps_of in Hs. rewrite Hall in Hs.
  apply list_elem_of_fmap in Hs as (l & -> & _). by eexists _, _.
Qed.

(** A crawl whose pages all go to [parse], started with no repetition in
    [self.patches], never yields the same patch link twice, nor one that was
    in [self.patches] at the start. *)
Theorem parse_only_crawl_no_duplicates self pages :
  NoDup (patches self) →
  parse_only pages →
  NoDup (item_links (crawl self pages).2)
  ∧ ∀ pl, pl ∈ patches self → pl ∉ item_links (crawl self pages).2.
Proof.
  intros Hnd Hall. rewrite crawl_run.
  apply link_steps_items_no_duplicates; [done|].
  by apply parse_only_link_steps.
Qed.

(** While the spider is still below its limit at the end of a crawl, no
    patch was lost: the patch link of every link of every page parsed, and
    of every patch of the Debian parser for every Debian page, is in
    [self.patches]. *)
Theorem crawl_below_limit_collects_all self pages :
  below_limit (crawl self pages).1 = true →
  (∀ response l pl,
     (parse_callback, response) ∈ pages →
     l ∈ page_links self response →
     is_patch (urljoin (url response) l) = Some pl →
     pl ∈ patches (crawl self pages).1)
  ∧ (∀ response patch,
       (parse_debian_callback, response) ∈ pages →
       patch ∈ debian_parse (vuln_id self) →
       patch_link patch ∈ patches (crawl self pages).1).
Proof.
  rewrite crawl_run. intros Hb. split.
  - intros response l pl Hpage Hl Hpl.
    apply (run_collects _ self (LinkStep response l)); [done| |done].
    apply list_elem_of_bind. exists (parse_callback, response).
    split; [|done]. unfold steps_of. simpl. by apply list_elem_of_fmap_2.
  - intros response patch Hpage Hpatch.
    apply (run_collects _ self (DebianStep patch)); [done| |done].
    apply list_elem_of_bind. exists (parse_debian_callback, response).
    split; [|done]. unfold steps_of. simpl. by apply list_elem_of_fmap_2.
Qed.

Lemma offers_step self page pl :
  offers self page pl ↔
  ∃ s, s ∈ steps_of self page ∧ step_link s = Some pl.
Proof.
  destruct page as [[] response]; unfold offers, steps_of, offered; simpl.
  - rewrite list_elem_of_omap. split.
    + intros (l & Hl & Hpl). exists (LinkStep response l).
      split; [by apply list_elem_of_fmap_2|done].
    + intros (s & Hs & Hpl).
      apply list_elem_of_fmap in Hs as (l & -> & Hl). by exists l.
  - rewrite list_elem_of_fmap. split.
    + intros (patch & -> & Hpatch). exists (DebianStep patch).
      split; [by apply list_elem_of_fmap_2|done].
    + intros (s & Hs & Hpl).
      apply list_elem_of_fmap in Hs as (patch & -> & Hpatch).
      injection Hpl as <-. by exists patch.
Qed.

Lemma step_item self s p :
  Item p ∈ (step self s).2 → step_link s = Some (patch_link p).
Proof.
  destruct s as [response l|patch]; simpl.
  - unfold parse_link.
    destruct (is_patch _) as [pl|], (below_limit self); simpl;
      try (by intros ?%elem_of_nil).
    + case_bool_decide; simpl; [by intros ?%elem_of_nil|].
      intros Hin%list_elem_of_singleton. by injection Hin as ->.
    + by intros ?%list_elem_of_singleton.
  - unfold debian_patch. destruct (below_limit self); simpl.
    + intros Hin%list_elem_of_singleton. by injection Hin as ->.
    + by intros ?%elem_of_nil.
Qed.

Lemma crawl_collected_offered self pages pl :
  pl ∈ patches (crawl self pages).1 →
  pl ∈ patches self ∨ ∃ page, page ∈ pages ∧ offers self page pl.
Proof.
  rewrite crawl_run, run_patches. intros [Hold|Hnew]%elem_of_app; [by left|].
  right. apply list_elem_of_omap in Hnew as ([p|r] & Hout & Hpl); [|done].
  injection Hpl as <-.
  apply (for_each_yielded (λ _, True)) in Hout as (s & st & _ & Hst & Hout);
    [|done..].
  apply step_item in Hout.
  apply list_elem_of_bind in Hst as (page & Hst & Hpage).
  exists page. split; [done|]. apply offers_step. by exists st.
Qed.

Lemma crawl_offered_collected self pages page pl :
  below_limit (crawl self pages).1 = true →
  page ∈ pages → offers self page pl →
  pl ∈ patches (crawl self pages).1.
Proof.
  rewrite crawl_run. intros Hb Hpage (st & Hst & Hpl)%offers_step.
  apply (run_collects _ self st); [done| |done].
  apply list_elem_of_bind. by exists page.
Qed.

(** A crawl never collects a patch link out of nowhere: whatever is in
    [self.patches] afterwards was there before, or is the patch link of a
    link of a page handed to [parse], or of a patch the Debian parser
    reported for a page handed to [parse_debian]. *)
Theorem crawl_collects_only_offered self pages pl :
  pl ∈ patches (crawl self pages).1 →
  pl ∈ patches self ∨ ∃ page, page ∈ pages ∧ offers self page pl.
Proof. apply crawl_collected_offered. Qed.

(** The order in which the responses arrive does not change which patch
    links are collected, as long as the limit is reached in neither order. *)
Theorem crawl_order_irrelevant_below_limit self pages pages' :
  pages ≡ₚ pages' →
  below_limit (crawl self pages).1 = true →
  below_limit (crawl self pages').1 = true →
  ∀ pl, pl ∈ patches (crawl self pages).1 ↔ pl ∈ patches (crawl self pages').1.
Proof.
  assert (∀ ps qs, ps ≡ₚ qs →
            below_limit (crawl self qs).1 = true →
            ∀ pl, pl ∈ patches (crawl self ps).1 →
                  pl ∈ patches (crawl self qs).1) as Hone.
  { intros ps qs Hperm Hb pl [Hold|(page & Hpage & Hoff)]%crawl_collected_offered.
    - rewrite crawl_run, run_patches. apply elem_of_app. by left.
    - apply (crawl_offered_collected self qs page); [done| |done].
      by rewrite <- Hperm. }
  intros Hperm Hb Hb' pl. split; [by apply Hone|].
  apply Hone; [by symmetry|done].
Qed.

Lemma debian_patches_take ps self :
  for_each debian_patch self ps
  = (foldl add_patch self (patch_link <$> take (remaining self) ps),
     Item <$> take (remaining self) ps).
Proof.
  revert self. induction ps as [|p ps IH]; intros self.
  - by rewrite take_nil.
  - destruct (below_limit self) eqn:Hb.
    + assert (debian_patch self p
              = (add_patch self (patch_link p), [Item p])) as Hstep.
      { unfold debian_patch. by rewrite Hb. }
      rewrite for_each_cons, Hstep. simpl fst. simpl snd.
      rewrite (remaining_below self (patch_link p)) by done.
      by rewrite IH.
    + rewrite (remaining_reached self Hb). simpl take. simpl foldl.
      apply for_each_idle. intros x _. unfold debian_patch. by rewrite Hb.
Qed.

Lemma patches_foldl_add_patch links self :
  patches (foldl add_patch self links) = patches self ++ links.
Proof.
  revert self. induction links as [|l links IH]; intros self; simpl.
  - by rewrite app_nil_r.
  - rewrite IH. simpl. by rewrite <- app_assoc.
Qed.

(** [parse_debian] yields the patches of the Debian parser unchanged and in
    order, as many of them as the limit leaves room for and no more, and
    appends their links to [self.patches]; with room for all of them it
    yields them all, at the limit none. *)
Theorem parse_debian_yields_prefix self response :
  (parse_debian self response).2
  = Item <$> take (remaining self) (debian_parse (vuln_id self))
  ∧ patches (parse_debian self response).1
    = patches self
      ++ (patch_link <$> take (remaining self) (debian_parse (vuln_id self)))
  ∧ ((length (debian_parse (vuln_id self)) ≤ remaining self)%nat →
     (parse_debian self response).2 = Item <$> debian_parse (vuln_id self))
  ∧ (limit_reached self → parse_debian self response = (self, [])).
Proof.
  unfold parse_debian. rewrite debian_patches_take. simpl.
  split_and!; [done|apply patches_foldl_add_patch| |].
  - intros Hroom. by rewrite take_ge.
  - intros Hr%below_limit_false. by rewrite (remaining_reached self Hr).
Qed.

(** What one iteration of [parse] does, with the conditions under which
    it does it. *)
Lemma parse_link_cases response self extracted :
  parse_link response self extracted = (self, [])
  ∨ (is_patch (urljoin (url response) extracted) = None
     ∧ below_limit self = true
     ∧ parse_link response self extracted
       = (self, [follow self response extracted]))
  ∨ (∃ pl, is_patch (urljoin (url response) extracted) = Some pl
           ∧ below_limit self = true
           ∧ (pl ∉ patches self)
           ∧ parse_link response self extracted
             = (add_patch self pl,
                [Item {| patch_link := pl; reaching_path := url response |}])).
Proof.
  unfold parse_link, follow.
  destruct (is_patch _) as [pl|] eqn:Hpl, (below_limit self); auto.
  case_bool_decide; [auto|]. right; right. by exists pl.
Qed.

Lemma links_sublist response links self :
  item_links (for_each (parse_link response) self links).2
  `sublist_of` omap (λ l, is_patch (urljoin (url response) l)) links.
Proof.
  revert self. induction links as [|l links IH]; intros self; [done|].
  rewrite for_each_cons. simpl snd. rewrite item_links_app.
  destruct (parse_link_cases response self l)
    as [->|[(Hno & _ & ->)|(pl & Hpl & _ & _ & ->)]]; simpl.
  - destruct (is_patch _); [apply sublist_cons|]; apply IH.
  - rewrite Hno. apply IH.
  - rewrite Hpl. apply sublist_skip, IH.
Qed.

(** The patches [parse] yields are patch links [is_patch] finds on the page,
    in the order of the page, and [parse] yields at most one result per
    extracted link. *)
Theorem parse_yields_offered self response :
  item_links (parse self response).2 `sublist_of` offered self response
  ∧ (length (parse self response).2 ≤ length (page_links self response))%nat.
Proof.
  rewrite parse_unfold. split; [apply links_sublist|].
  apply for_each_length. intros s l.
  destruct (parse_link_cases response s l)
    as [->|[(_ & _ & ->)|(pl & _ & _ & _ & ->)]]; simpl; lia.
Qed.



Lemma stationary_links response self links :
  (∀ l, l ∈ links →
        (parse_link response self l).1 = self
        ∧ item_links (parse_link response self l).2 = []) →
  (for_each (parse_link response) self links).1 = self
  ∧ item_links (for_each (parse_link response) self links).2 = [].
Proof.
  induction links as [|l links IH]; intros Hall; [done|].
  destruct (Hall l) as [Hs Hi]; [apply list_elem_of_here|].
  rewrite for_each_cons. simpl fst. simpl snd.
  rewrite item_links_app, Hs, Hi.
  apply IH. intros l' Hl'. by apply Hall, list_elem_of_further.
Qed.

(** Parsing a page a second time right after the first yields no patch and
    leaves the spider as the first parse left it. *)
Theorem reparse_yields_no_patch self response :
  (parse (parse self response).1 response).1 = (parse self response).1
  ∧ item_links (parse (parse self response).1 response).2 = [].
Proof.
  rewrite (parse_unfold (parse self response).1).
  assert (page_links (parse self response).1 response
          = page_links self response) as ->.
  { unfold page_links. rewrite parse_run.
    pose proof (run_same_settings self
                  (steps_of self (parse_callback, response)))
      as (_ & _ & _ & -> & _). done. }
  apply stationary_links. intros l Hl.
  destruct (below_limit (parse self response).1) eqn:Hb.
  - destruct (is_patch (urljoin (url response) l)) as [pl|] eqn:Hpl.
    + assert (pl ∈ patches (parse self response).1) as Hin.
      { rewrite parse_run in Hb |- *.
        apply (run_collects _ self (LinkStep response l)); [done| |done].
        unfold steps_of. simpl. by apply list_elem_of_fmap_2. }
      unfold parse_link. rewrite Hpl, Hb. by rewrite bool_decide_eq_true_2.
    + unfold parse_link. by rewrite Hpl, Hb.
  - apply below_limit_false in Hb.
    pose proof (step_limit_reached _ (LinkStep response l) Hb) as Hidle.
    simpl in Hidle. by rewrite Hidle.
Qed.

Lemma parse_link_grows response self l :
  ∀ x, x ∈ patches self → x ∈ patches (parse_link response self l).1.
Proof.
  intros x Hx.
  pose proof (step_patches self (LinkStep response l)) as Hp.
  simpl in Hp. rewrite Hp. apply elem_of_app. by left.
Qed.

(** Every patch [parse] yields was found on a link of that page, has the
    URL of the page as [reaching_path], was not in [self.patches] before and
    is in it afterwards. *)
Theorem parse_patch_provenance self response p :
  Item p ∈ (parse self response).2 →
  reaching_path p = url response
  ∧ (patch_link p ∉ patches self)
  ∧ (patch_link p ∈ patches (parse self response).1)
  ∧ ∃ l, l ∈ page_links self response
         ∧ is_patch (urljoin (url response) l) = Some (patch_link p).
Proof.
  intros Hin.
  assert (patch_link p ∈ patches (parse self response).1) as Hafter.
  { rewrite parse_run, run_patches, <- parse_run.
    apply elem_of_app. right. apply list_elem_of_omap. by exists (Item p). }
  rewrite parse_unfold in Hin.
  apply (for_each_yielded (λ s, ∀ x, x ∈ patches self → x ∈ patches s))
    in Hin as (s & l & Hs & Hl & Hout);
    [|intros s x Hs y Hy; by apply parse_link_grows, Hs|done].
  destruct (parse_link_cases response s l)
    as [Heq|[(_ & _ & Heq)|(pl & Hpl & _ & Hnew & Heq)]];
    rewrite Heq in Hout; simpl in Hout.
  - by apply elem_of_nil in Hout.
  - by apply list_elem_of_singleton in Hout.
  - apply list_elem_of_singleton in Hout. injection Hout as ->. simpl in *.
    split_and!; [done| |done|by exists l].
    intros Hold. by apply Hnew, Hs.
Qed.


End WithCollaborators.

#[local] Existing Instance Sample.collaborators.

Lemma crawl_patches_bound_witness :
  within_limit (Sample.spider Sample.cve 2 [])
  ∧ Z.of_nat
      (length
         (item_links
            (crawl (Sample.spider Sample.cve 2 [])
                   [(parse_callback, Sample.mixed_page);
                    (parse_debian_callback, Sample.debian_page)]).2))
    ≤ 2 - 0.
Proof.
  assert (within_limit (Sample.spider Sample.cve 2 [])) as Hin.
  { unfold within_limit. simpl. lia. }
  split; [done|].
  apply (crawl_patches_bound (Sample.spider Sample.cve 2 []) _ Hin).
Defined.

Lemma parse_only_crawl_no_duplicates_witness :
  NoDup (patches (Sample.spider Sample.cve 100 []))
  ∧ parse_only [(parse_callback, Sample.mixed_page);
                (parse_callback, Sample.mixed_page);
                (parse_callback, Sample.patches_page)]
  ∧ NoDup
      (item_links
         (crawl (Sample.spider Sample.cve 100 [])
                [(parse_callback, Sample.mixed_page);
                 (parse_callback, Sample.mixed_page);
                 (parse_callback, Sample.patches_page)]).2).
Proof.
  assert (NoDup (patches (Sample.spider Sample.cve 100 []))) as Hnd.
  { apply NoDup_nil_2. }
  assert (parse_only [(parse_callback, Sample.mixed_page);
                      (parse_callback, Sample.mixed_page);
                      (parse_callback, Sample.patches_page)]) as Honly.
  { unfold parse_only. by repeat constructor. }
  split_and!; [done..|].
  apply (parse_only_crawl_no_duplicates _ _ Hnd Honly).
Defined.

Lemma crawl_below_limit_collects_all_witness :
  below_limit
    (crawl (Sample.spider Sample.cve 100 [])
           [(parse_callback, Sample.patches_page)]).1 = true
  ∧ "https://github.com/a/b/commit/3.patch"
      ∈ patches
          (crawl (Sample.spider Sample.cve 100 [])
                 [(parse_callback, Sample.patches_page)]).1.
Proof.
  assert (below_limit
            (crawl (Sample.spider Sample.cve 100 [])
                   [(parse_callback, Sample.patches_page)]).1 = true) as Hb.
  { vm_compute. reflexivity. }
  split; [done|].
  destruct (crawl_below_limit_collects_all _ _ Hb) as [Hlinks _].
  apply (Hlinks Sample.patches_page "https://github.com/a/b/commit/3.patch").
  - apply list_elem_of_here.
  - vm_compute. do 2 apply list_elem_of_further. apply list_elem_of_here.
  - vm_compute. reflexivity.
Defined.

Lemma crawl_collects_only_offered_witness :
  "https://github.com/uclouvain/openjpeg/commit/162f.patch"
    ∈ patches
        (crawl (Sample.spider Sample.cve 100 [])
               [(parse_debian_callback, Sample.debian_page)]).1
  ∧ ∃ page,
      page ∈ [(parse_debian_callback, Sample.debian_page)]
      ∧ offers (Sample.spider Sample.cve 100 []) page
               "https://github.com/uclouvain/openjpeg/commit/162f.patch".
Proof.
  assert ("https://github.com/uclouvain/openjpeg/commit/162f.patch"
            ∈ patches
                (crawl (Sample.spider Sample.cve 100 [])
                       [(parse_debian_callback, Sample.debian_page)]).1) as Hin.
  { vm_compute. apply list_elem_of_here. }
  split; [done|].
  destruct (crawl_collects_only_offered _ _ _ Hin) as [Hold|Hoff]; [|done].
  simpl in Hold. by apply elem_of_nil in Hold.
Defined.

Lemma crawl_order_irrelevant_below_limit_witness :
  [(parse_callback, Sample.mixed_page); (parse_callback, Sample.patches_page)]
    ≡ₚ [(parse_callback, Sample.patches_page); (parse_callback, Sample.mixed_page)]
  ∧ below_limit
      (crawl (Sample.spider Sample.cve 100 [])
             [(parse_callback, Sample.mixed_page);
              (parse_callback, Sample.patches_page)]).1 = true
  ∧ below_limit
      (crawl (Sample.spider Sample.cve 100 [])
             [(parse_callback, Sample.patches_page);
              (parse_callback, Sample.mixed_page)]).1 = true
  ∧ ("https://github.com/a/b/commit/2.patch"
       ∈ patches
           (crawl (Sample.spider Sample.cve 100 [])
                  [(parse_callback, Sample.mixed_page);
                   (parse_callback, Sample.patches_page)]).1 ↔
     "https://github.com/a/b/commit/2.patch"
       ∈ patches
           (crawl (Sample.spider Sample.cve 100 [])
                  [(parse_callback, Sample.patches_page);
                   (parse_callback, Sample.mixed_page)]).1).
Proof.
  assert ([(parse_callback, Sample.mixed_page);
           (parse_callback, Sample.patches_page)]
            ≡ₚ [(parse_callback, Sample.patches_page);
                (parse_callback, Sample.mixed_page)]) as Hperm.
  { apply perm_swap. }
  assert (below_limit
            (crawl (Sample.spider Sample.cve 100 [])
                   [(parse_callback, Sample.mixed_page);
                    (parse_callback, Sample.patches_page)]).1 = true) as Hb.
  { vm_compute. reflexivity. }
  assert (below_limit
            (crawl (Sample.spider Sample.cve 100 [])
                   [(parse_callback, Sample.patches_page);
                    (parse_callback, Sample.mixed_page)]).1 = true) as Hb'.
  { vm_compute. reflexivity. }
  split_and!; [done..|].
  apply (crawl_order_irrelevant_below_limit _ _ _ Hperm Hb Hb').
Defined.


Lemma parse_patch_provenance_witness :
  Item {| patch_link := "https://github.com/uclouvain/openjpeg/commit/a1b2.patch";
          reaching_path := "https://lists.fedoraproject.org/message/5FFMOZOF/" |}
    ∈ (parse (Sample.spider Sample.cve 100 []) Sample.mixed_page).2
  ∧ ("https://github.com/uclouvain/openjpeg/commit/a1b2.patch"
       ∈ patches (parse (Sample.spider Sample.cve 100 []) Sample.mixed_page).1).
Proof.
  assert (Item {| patch_link :=
                    "https://github.com/uclouvain/openjpeg/commit/a1b2.patch";
                  reaching_path :=
                    "https://lists.fedoraproject.org/message/5FFMOZOF/" |}
            ∈ (parse (Sample.spider Sample.cve 100 []) Sample.mixed_page).2)
    as Hin.
  { vm_compute. do 2 apply list_elem_of_further. apply list_elem_of_here. }
  split; [done|].
  destruct (parse_patch_provenance _ _ _ Hin) as (_ & _ & Hafter & _).
  exact Hafter.
Defined.


End DefaultSpiderMore.

(** ** base_spider.py *)

Module BaseSpiderMore.
Import Http BaseSpider BaseSpiderFacts.

Section WithCollaborators.
Context `{!Collaborators}.
Variable _callback_by_url : Response → option Callable.

Lemma _scrape_elem response x :
  x ∈ _scrape response ↔
  ∃ xpath, xpath ∈ normal_xpaths (url response)
           ∧ x ∈ xpath_extract response xpath.
Proof.
  unfold _scrape. rewrite list_elem_of_bind.
  split; intros (xpath & H1 & H2); by exists xpath.
Qed.

(** A callable selected by URL is the one [parse] runs, whatever the
    headers of the response say. *)
Theorem url_callback_takes_precedence response parse_callable :
  _callback_by_url response = Some parse_callable →
  _callback _callback_by_url response = Some parse_callable
  ∧ parse _callback_by_url response = parse_callable response.
Proof.
  intros Hurl. unfold parse, _callback. by rewrite Hurl.
Qed.

(** Without a callable selected by URL, a response whose [Content-Type]
    does not start with [application/json] is scraped as it is: [parse]
    yields, xpath after xpath of the resource of its URL, what each of them
    extracts, and nothing when the resource has no xpath. *)
Theorem parse_scrapes_other_content response content_type :
  _callback_by_url response = None →
  headers response !! "Content-Type" = Some content_type →
  String.prefix "application/json" content_type = false →
  parse _callback_by_url response = Yielded (_scrape response)
  ∧ (∀ x, x ∈ _scrape response ↔
          ∃ xpath, xpath ∈ normal_xpaths (url response)
                   ∧ x ∈ xpath_extract response xpath)
  ∧ (normal_xpaths (url response) = [] →
     parse _callback_by_url response = Yielded []).
Proof.
  intros Hurl Hct Hother.
  assert (parse _callback_by_url response = Yielded (_scrape response)) as Hp.
  { unfold parse, _callback.
    rewrite Hurl, (_callback_by_content_Some _ _ Hct), Hother. done. }
  split_and!; [done|apply _scrape_elem|].
  intros Hnone. rewrite Hp. unfold _scrape. by rewrite Hnone.
Qed.

(** Without a callable selected by URL, a response whose [Content-Type]
    starts with [application/json] and whose body is a JSON document is
    scraped after its body is replaced by the XML of the document: the URL
    and the headers are kept, so the xpaths are those of the resource of the
    original URL. *)
Theorem parse_json_content response content_type xml :
  _callback_by_url response = None →
  headers response !! "Content-Type" = Some content_type →
  String.prefix "application/json" content_type = true →
  json_to_xml (body response) = Some xml →
  ∃ items,
    parse _callback_by_url response = Yielded items
    ∧ ∀ x, x ∈ items ↔
           ∃ xpath, xpath ∈ normal_xpaths (url response)
                    ∧ x ∈ xpath_extract
                            {| url := url response;
                               headers := headers response;
                               body := xml |} xpath.
Proof.
  intros Hurl Hct Hjson Hxml.
  exists (_scrape {| url := url response; headers := headers response;
                     body := xml |}).
  split;
    [|apply (_scrape_elem {| url := url response; headers := headers response;
                             body := xml |})].
  unfold parse, _callback.
  rewrite Hurl, (_callback_by_content_Some _ _ Hct), Hjson.
  unfold parse_json, _json_response_to_xml. by rewrite Hxml.
Qed.

(** Without a callable selected by URL, a response that says it is JSON
    and whose body is no JSON document makes [parse] raise before it yields
    anything. *)
Theorem parse_json_invalid_body_raises response content_type :
  _callback_by_url response = None →
  headers response !! "Content-Type" = Some content_type →
  String.prefix "application/json" content_type = true →
  json_to_xml (body response) = None →
  _callback _callback_by_url response = Some parse_json
  ∧ parse _callback_by_url response = Raised.
Proof.
  intros Hurl Hct Hjson Hxml.
  assert (_callback _callback_by_url response = Some parse_json) as Hcb.
  { unfold _callback.
    by rewrite Hurl, (_callback_by_content_Some _ _ Hct), Hjson. }
  split; [done|]. unfold parse. rewrite Hcb.
  unfold parse_json, _json_response_to_xml. by rewrite Hxml.
Qed.

End WithCollaborators.

#[local] Existing Instance Sample.scraper.

Lemma url_callback_takes_precedence_witness :
  SampleMore.redhat_hook
    {| url := "https://access.redhat.com/security/cve/CVE-2016-4796";
       headers := {[ "Content-Type" := "text/html" ]};
       body := "<html>" |}
  = Some parse_json
  ∧ parse SampleMore.redhat_hook
      {| url := "https://access.redhat.com/security/cve/CVE-2016-4796";
         headers := {[ "Content-Type" := "text/html" ]};
         body := "<html>" |}
    = Raised.
Proof.
  assert (SampleMore.redhat_hook
            {| url := "https://access.redhat.com/security/cve/CVE-2016-4796";
               headers := {[ "Content-Type" := "text/html" ]};
               body := "<html>" |}
          = Some parse_json) as Hhook by reflexivity.
  split; [done|].
  destruct (url_callback_takes_precedence SampleMore.redhat_hook _ _ Hhook)
    as [_ ->].
  reflexivity.
Defined.

Lemma parse_scrapes_other_content_witness :
  base_callback_by_url Sample.debian_page = None
  ∧ headers Sample.debian_page !! "Content-Type" = Some "text/html"
  ∧ String.prefix "application/json" "text/html" = false
  ∧ parse base_callback_by_url Sample.debian_page
    = Yielded (_scrape Sample.debian_page).
Proof.
  assert (headers Sample.debian_page !! "Content-Type" = Some "text/html")
    as Hct by apply lookup_singleton_eq.
  split_and!; [done..|].
  destruct (parse_scrapes_other_content base_callback_by_url
              Sample.debian_page "text/html" eq_refl Hct eq_refl)
    as (Hparse & _).
  exact Hparse.
Defined.

Lemma parse_json_content_witness :
  base_callback_by_url (SampleMore.json_page "{ }") = None
  ∧ headers (SampleMore.json_page "{ }") !! "Content-Type"
    = Some "application/json; charset=utf-8"
  ∧ String.prefix "application/json" "application/json; charset=utf-8" = true
  ∧ json_to_xml (body (SampleMore.json_page "{ }")) = Some "{ }"
  ∧ ∃ items, parse base_callback_by_url (SampleMore.json_page "{ }")
             = Yielded items.
Proof.
  assert (headers (SampleMore.json_page "{ }") !! "Content-Type"
          = Some "application/json; charset=utf-8") as Hct
    by apply lookup_singleton_eq.
  assert (json_to_xml (body (SampleMore.json_page "{ }")) = Some "{ }")
    as Hxml.
  { vm_compute. reflexivity. }
  split_and!; [done..|].
  destruct (parse_json_content base_callback_by_url
              (SampleMore.json_page "{ }") _ "{ }" eq_refl Hct eq_refl Hxml)
    as (items & Hparse & _).
  by exists items.
Defined.

Lemma parse_json_invalid_body_raises_witness :
  base_callback_by_url (SampleMore.json_page "<html>") = None
  ∧ headers (SampleMore.json_page "<html>") !! "Content-Type"
    = Some "application/json; charset=utf-8"
  ∧ String.prefix "application/json" "application/json; charset=utf-8" = true
  ∧ json_to_xml (body (SampleMore.json_page "<html>")) = None
  ∧ parse base_callback_by_url (SampleMore.json_page "<html>") = Raised.
Proof.
  assert (headers (SampleMore.json_page "<html>") !! "Content-Type"
          = Some "application/json; charset=utf-8") as Hct
    by apply lookup_singleton_eq.
  assert (json_to_xml (body (SampleMore.json_page "<html>")) = None) as Hxml.
  { vm_compute. reflexivity. }
  split_and!; [done..|].
  destruct (parse_json_invalid_body_raises base_callback_by_url
              (SampleMore.json_page "<html>") _ eq_refl Hct eq_refl Hxml)
    as [_ Hraised].
  exact Hraised.
Defined.

End BaseSpiderMore.

(** ** patchfinder.py *)

Module PatchfinderMore.
Import Patchfinder PatchfinderFacts.

Section WithContext.
Variable create_vuln : string → option Vulnerability.Vuln.


(** For a recognised identifier the spider of the one crawl started is
    fresh, is for the vulnerability [create_vuln] returned, with its
    entrypoint URLs as start URLs, and takes its limit and its domain lists
    from the command line in place of the class attributes; the settings
    take the depth and the logging switch from the command line. *)
Theorem spawned_spider_from_args args w vuln :
  create_vuln (vuln_id args) = Some vuln →
  ∃ settings spider,
    crawls (spawn_crawler create_vuln args w).2 = crawls w ++ [(settings, spider)]
    ∧ DefaultSpider.patches spider = []
    ∧ DefaultSpider.vuln_id spider = Vulnerability.vuln_id vuln
    ∧ DefaultSpider.start_urls spider = Vulnerability.entrypoint_URLs vuln
    ∧ DefaultSpider.patch_limit spider = patch_limit args
    ∧ DefaultSpider.deny_domains spider = deny_domains args
    ∧ DefaultSpider.important_domains spider = imp_domains args
    ∧ DEPTH_LIMIT settings = depth args
    ∧ LOG_ENABLED settings = log args.
Proof.
  intros Hyes.
  destruct (spawn_crawler_recognized create_vuln args w vuln Hyes)
    as (settings & spider & -> & Hd & Hlog & Hv & Hs & Hp & Hl & Hi & Hdeny).
  exists settings, spider. simpl. by split_and!.
Qed.

(** The [--patch_limit] given on the command line bounds the patches of the
    crawl the program starts: with a limit that is not negative no sequence
    of pages makes the spider yield more patches than the limit, and with a
    limit of zero or less the spider yields nothing at all, no request
    either. *)
Theorem patch_limit_option_bounds_crawl args w vuln :
  create_vuln (vuln_id args) = Some vuln →
  ∃ settings spider,
    crawls (world_after (main create_vuln args w))
    = crawls w ++ [(settings, spider)]
    ∧ ∀ (collaborators : DefaultSpider.Collaborators) pages,
        (0 ≤ patch_limit args →
         Z.of_nat (length (DefaultSpider.item_links
                             (DefaultSpider.crawl spider pages).2))
         ≤ patch_limit args)
        ∧ (patch_limit args ≤ 0 →
           DefaultSpider.crawl spider pages = (spider, [])).
Proof.
  intros Hyes. unfold main.
  destruct (spawn_crawler_recognized create_vuln args w vuln Hyes)
    as (settings & spider & -> & _ & _ & _ & _ & Hp & Hl & _).
  exists settings, spider. split; [done|].
  intros collaborators pages. split.
  - intros Hpos.
    assert (DefaultSpider.within_limit spider) as Hin.
    { unfold DefaultSpider.within_limit. rewrite Hp, Hl. simpl. lia. }
    pose proof (DefaultSpiderMore.crawl_yield_room spider pages Hin) as Hroom.
    rewrite Hp, Hl in Hroom. simpl in Hroom. lia.
  - intros Hneg. apply DefaultSpiderMore.crawl_at_limit.
    unfold DefaultSpider.limit_reached. rewrite Hp, Hl. simpl. lia.
Qed.

End WithContext.

Lemma spawned_spider_from_args_witness :
  Sample.create_vuln (vuln_id (Sample.args "CVE-2016-4796"))
  = Some {| Vulnerability.vuln_id := "CVE-2016-4796";
            Vulnerability.kind := Vulnerability.Specific;
            Vulnerability.base_url :=
              "https://cve.mitre.org/cgi-bin/cvename.cgi?name=CVE-2016-4796";
            Vulnerability.entrypoint_URLs :=
              ["https://nvd.nist.gov/vuln/detail/CVE-2016-4796"] |}
  ∧ ∃ settings spider,
      crawls (spawn_crawler Sample.create_vuln (Sample.args "CVE-2016-4796")
                            Sample.quiet).2
      = [(settings, spider)]
      ∧ DefaultSpider.start_urls spider
        = ["https://nvd.nist.gov/vuln/detail/CVE-2016-4796"]
      ∧ DefaultSpider.deny_domains spider = ["facebook.com"; "twitter.com"].
Proof.
  assert (Sample.create_vuln (vuln_id (Sample.args "CVE-2016-4796"))
          = Some {| Vulnerability.vuln_id := "CVE-2016-4796";
                    Vulnerability.kind := Vulnerability.Specific;
                    Vulnerability.base_url :=
                      "https://cve.mitre.org/cgi-bin/cvename.cgi?name=CVE-2016-4796";
                    Vulnerability.entrypoint_URLs :=
                      ["https://nvd.nist.gov/vuln/detail/CVE-2016-4796"] |})
    as Hyes.
  { vm_compute. reflexivity. }
  split; [done|].
  destruct (spawned_spider_from_args Sample.create_vuln
              (Sample.args "CVE-2016-4796") Sample.quiet _ Hyes)
    as (settings & spider & Hcrawls & _ & _ & Hstart & _ & Hdeny & _).
  by exists settings, spider.
Defined.

Lemma patch_limit_option_bounds_crawl_witness :
  Sample.create_vuln (vuln_id (Sample.args "CVE-2016-4796"))
  = Some {| Vulnerability.vuln_id := "CVE-2016-4796";
            Vulnerability.kind := Vulnerability.Specific;
            Vulnerability.base_url :=
              "https://cve.mitre.org/cgi-bin/cvename.cgi?name=CVE-2016-4796";
            Vulnerability.entrypoint_URLs :=
              ["https://nvd.nist.gov/vuln/detail/CVE-2016-4796"] |}
  ∧ ∃ settings spider,
      crawls (world_after (main Sample.create_vuln
                                (Sample.args "CVE-2016-4796") Sample.quiet))
      = [(settings, spider)]
      ∧ Z.of_nat
          (length
             (DefaultSpider.item_links
                (DefaultSpider.crawl (H := Sample.collaborators) spider
                   [(DefaultSpider.parse_callback, Sample.mixed_page)]).2))
        ≤ 100.
Proof.
  assert (Sample.create_vuln (vuln_id (Sample.args "CVE-2016-4796"))
          = Some {| Vulnerability.vuln_id := "CVE-2016-4796";
                    Vulnerability.kind := Vulnerability.Specific;
                    Vulnerability.base_url :=
                      "https://cve.mitre.org/cgi-bin/cvename.cgi?name=CVE-2016-4796";
                    Vulnerability.entrypoint_URLs :=
                      ["https://nvd.nist.gov/vuln/detail/CVE-2016-4796"] |})
    as Hyes.
  { vm_compute. reflexivity. }
  split; [done|].
  destruct (patch_limit_option_bounds_crawl Sample.create_vuln
              (Sample.args "CVE-2016-4796") Sample.quiet _ Hyes)
    as (settings & spider & Hcrawls & Hbound).
  exists settings, spider. split; [done|].
  destruct (Hbound Sample.collaborators
              [(DefaultSpider.parse_callback, Sample.mixed_page)])
    as [Hpos _].
  apply Hpos. simpl. lia.
Defined.

End PatchfinderMore.
